(** * Intraday backtest engine: a shallow embedding and its properties

    The development follows three scripts of the repository:
    - [backtest.py]       (module [Backtest]): percentage stop, IBKR cost
      model, equity compounding, summary;
    - [range_breakout.py] (module [RangeBreakout]): 1:1 target/stop scan;
    - [research_algo.py]  (module [ResearchAlgo]): point gains with a fixed
      stop in points.

    Numbers.  Python floats are modelled by exact rationals [Q]; numeric
    equalities are therefore stated with [==] ([Qeq]).  NaN cells of a
    DataFrame are [None]; the few places where pandas can produce an
    infinity or a NaN by dividing (the drawdown series) use [xfloat].
    Exceptions are values of [exn], threaded through the error monad [res]. *)

From Stdlib Require Import QArith Qabs Qround Lqa ZArith Lia String List Bool Sorted.
From stdpp Require Import gmap strings list.
Import ListNotations.

Local Open Scope Q_scope.
Local Open Scope string_scope.
Local Open Scope list_scope.

(* ===================================================================== *)
(** ** Python primitives                                                  *)
(* ===================================================================== *)

Module Py.

(** Exceptions the scripts can raise. *)
Inductive exn : Set :=
| ValueError (msg : string)
| IndexError
| KeyError (key : string)
| ZeroDivisionError.

Inductive res (A : Type) : Type :=
| Ok (a : A)
| Raise (e : exn).
Arguments Ok {A} a.
Arguments Raise {A} e.

Definition bind {A B : Type} (m : res A) (k : A -> res B) : res B :=
  match m with
  | Ok a => k a
  | Raise e => Raise e
  end.

Definition is_ok {A : Type} (m : res A) : bool :=
  match m with Ok _ => true | Raise _ => false end.

(** Comparisons of floats, as booleans. *)
Definition Qleb (x y : Q) : bool := Qle_bool x y.
Definition Qltb (x y : Q) : bool := negb (Qle_bool y x).
Definition Qeqb (x y : Q) : bool := Qeq_bool x y.

(** [max(a, b)] and [min(a, b)]: the first argument is kept unless the
    second is strictly better. *)
Definition py_max (a b : Q) : Q := if Qltb a b then b else a.
Definition py_min (a b : Q) : Q := if Qltb b a then b else a.

(** [a / b] on floats. *)
Definition py_div (a b : Q) : res Q :=
  if Qeqb b 0 then Raise ZeroDivisionError else Ok (a / b).

(** [math.isclose(a, b)] with its defaults [rel_tol=1e-09], [abs_tol=0.0]. *)
Definition rel_tol : Q := 1e-9.
Definition abs_tol : Q := 0.
Definition isclose (a b : Q) : bool :=
  if Qeqb a b then true
  else
    let diff := Qabs (b - a) in
    Qleb diff (Qabs (rel_tol * b)) || Qleb diff (Qabs (rel_tol * a))
    || Qleb diff abs_tol.

(** [round(x, ndigits)]: nearest multiple of [10^-ndigits], ties to even. *)
Definition round_half_even (y : Q) : Z :=
  let f := Qfloor y in
  let r := y - inject_Z f in
  if Qltb r (1 # 2) then f
  else if Qltb (1 # 2) r then (f + 1)%Z
  else if Z.even f then f else (f + 1)%Z.

Definition py_round (x : Q) (ndigits : nat) : Q :=
  let s := inject_Z (10 ^ Z.of_nat ndigits) in
  inject_Z (round_half_even (x * s)) / s.

(** [seq.iloc[0]]. *)
Definition iloc0 {A : Type} (l : list A) : res A :=
  match l with
  | [] => Raise IndexError
  | a :: _ => Ok a
  end.

(** [d[k]] on a dict with string keys. *)
Definition dict_get (m : gmap string Q) (k : string) : res Q :=
  match m !! k with
  | Some v => Ok v
  | None => Raise (KeyError k)
  end.

(** Floats that may be infinite or NaN (results of numpy divisions). *)
Inductive xfloat : Set :=
| Fin (q : Q)
| PInf
| NInf
| NaN.

(** Element of [a / b] on two Series: no exception, IEEE results. *)
Definition np_div (a b : Q) : xfloat :=
  if Qeqb b 0 then
    (if Qltb 0 a then PInf else if Qltb a 0 then NInf else NaN)
  else Fin (a / b).

Definition x_sub (x : xfloat) (c : Q) : xfloat :=
  match x with Fin q => Fin (q - c) | _ => x end.

(** Multiplication by a positive constant. *)
Definition x_scale (x : xfloat) (c : Q) : xfloat :=
  match x with Fin q => Fin (q * c) | _ => x end.

Definition x_round (x : xfloat) (ndigits : nat) : xfloat :=
  match x with Fin q => Fin (py_round q ndigits) | _ => x end.

Definition x_ltb (x y : xfloat) : bool :=
  match x, y with
  | NaN, _ | _, NaN => false
  | NInf, NInf => false
  | NInf, _ => true
  | _, NInf => false
  | PInf, _ => false
  | Fin _, PInf => true
  | Fin a, Fin b => Qltb a b
  end.

(** [Series.min()]: NaN entries are skipped; NaN when nothing is left. *)
Definition x_min2 (acc x : xfloat) : xfloat :=
  match acc, x with
  | NaN, _ => x
  | _, NaN => acc
  | _, _ => if x_ltb x acc then x else acc
  end.
Definition series_min (s : list xfloat) : xfloat := fold_left x_min2 s NaN.

(** [Series.cummax()] on a column without NaN. *)
Fixpoint cummax_from (m : Q) (s : list Q) : list Q :=
  match s with
  | [] => []
  | x :: s' => let m' := py_max m x in m' :: cummax_from m' s'
  end.
Definition cummax (s : list Q) : list Q :=
  match s with
  | [] => []
  | x :: s' => x :: cummax_from x s'
  end.

(** [DataFrame.sort_values(key)], ascending.  Rows with equal keys keep
    their order (pandas leaves ties to the sorting algorithm; the frames
    sorted here arrive in timestamp order already). *)
Fixpoint insert_by {A : Type} (key : A -> Z) (x : A) (l : list A) : list A :=
  match l with
  | [] => [x]
  | y :: l' => if (key x <=? key y)%Z then x :: l else y :: insert_by key x l'
  end.
Definition sort_values {A : Type} (key : A -> Z) (l : list A) : list A :=
  fold_right (insert_by key) [] l.

(** Keys of [groupby(..., sort=True)]: distinct, ascending. *)
Fixpoint insert_key (k : Z) (l : list Z) : list Z :=
  match l with
  | [] => [k]
  | y :: l' =>
      if (k <? y)%Z then k :: l
      else if (k =? y)%Z then l
      else y :: insert_key k l'
  end.
Definition group_keys (ks : list Z) : list Z := fold_right insert_key [] ks.

(** [df.groupby(key)] ([sort=True] is the default): one group per key
    value, keys ascending, rows of a group in the order of [df]. *)
Definition groupby {A : Type} (key : A -> Z) (df : list A)
  : list (Z * list A) :=
  map (fun k => (k, List.filter (fun b => (key b =? k)%Z) df))
      (group_keys (map key df)).

End Py.
Import Py.

Declare Scope res_scope.
Delimit Scope res_scope with res.
Notation "'let*' x ':=' m 'in' k" := (bind m (fun x => k))
  (at level 10, x name, m at level 100, k at level 200) : res_scope.
Local Open Scope res_scope.

(* ===================================================================== *)
(** ** backtest.py                                                        *)
(* ===================================================================== *)

Module Backtest.

(** *** Configuration constants *)

Definition FIRST_BAR_TIME : string := "09:30".
Definition ENTRY_TIME : string := "09:45".
Definition EXIT_TIME : string := "11:30".

Definition STOP_PCT_DEFAULT : Q := 0.005.

Definition START_EQUITY : Q := 100.
Definition ALLOC_PCT : Q := 1.
Definition FRACTIONAL_SHARES : bool := true.
Definition MIN_FRACTIONAL_SHARES : Q := 0.0001.

Definition SLIPPAGE_PER_SHARE : Q := 0.
Definition EXTRA_FEES_PER_SHARE : Q := 0.

Definition PRICING_PLAN : string := "pro_fixed".

Definition PF_RATE_PER_SHARE : Q := 0.005.
Definition PF_MIN_PER_ORDER : Q := 1.
Definition PF_MAX_RATE_OF_TRADE : Q := 0.01.

Definition PT_MIN_PER_ORDER : Q := 0.35.
Definition PT_MAX_RATE_OF_TRADE : Q := 0.01.

(** A tier threshold: a finite volume, or [float("inf")]. *)
Inductive threshold : Set :=
| Upto (v : Q)
| Inf.

Definition PT_TIERS : list (threshold * Q) :=
  [ (Upto 300000, 0.0035);
    (Upto 3000000, 0.0020);
    (Upto 20000000, 0.0015);
    (Upto 100000000, 0.0010);
    (Inf, 0.0005) ].

Definition LITE_RATE_PER_SHARE : Q := 0.002.
Definition LITE_MIN_PER_ORDER : Q := 0.003.

(** *** Bars: the rows of the DataFrame returned by [load_data] *)

Record Bar : Type := mkBar {
  date_local : Z;      (* local timestamp, in seconds *)
  d : Z;               (* local calendar day (ordinal) *)
  t : string;          (* "HH:MM" label of [date_local] *)
  month_key : string;  (* "YYYY-MM" *)
  open : Q;
  high : Q;
  low : Q;
  close : Q
}.

(** The tail of [load_data]: rows sorted by local timestamp (column
    checks and timestamp parsing happen before). *)
Definition load_data (raw : list Bar) : list Bar :=
  sort_values date_local raw.

(** *** Cost model *)

Definition le_threshold (v : Q) (th : threshold) : bool :=
  match th with
  | Upto q => Qleb v q
  | Inf => true
  end.

Fixpoint first_tier (monthly_shares_before : Q) (tiers : list (threshold * Q))
  : option Q :=
  match tiers with
  | [] => None
  | (th, rate) :: rest =>
      if le_threshold monthly_shares_before th then Some rate
      else first_tier monthly_shares_before rest
  end.

Definition rate_for_tiered (monthly_shares_before : Q) : Q :=
  match first_tier monthly_shares_before PT_TIERS with
  | Some rate => rate
  | None => snd (List.last PT_TIERS (Inf, 0))
  end.

Definition commission_one_side
    (shares price : Q) (plan : string) (monthly_shares_before : Q) : res Q :=
  if Qleb shares 0 || Qleb price 0 then Ok 0
  else
    let trade_value := price * shares in
    if String.eqb plan "pro_fixed" then
      let base := PF_RATE_PER_SHARE * shares in
      let base := py_max base PF_MIN_PER_ORDER in
      let base := py_min base (PF_MAX_RATE_OF_TRADE * trade_value) in
      Ok base
    else if String.eqb plan "pro_tiered" then
      let rate := rate_for_tiered monthly_shares_before in
      let base := rate * shares in
      let base := py_max base PT_MIN_PER_ORDER in
      let base := py_min base (PT_MAX_RATE_OF_TRADE * trade_value) in
      Ok base
    else if String.eqb plan "lite" then
      let base := LITE_RATE_PER_SHARE * shares in
      let base := py_max base LITE_MIN_PER_ORDER in
      Ok base
    else Raise (ValueError "Unknown PRICING_PLAN").

Definition full_side_cost
    (shares price : Q) (plan : string) (monthly_shares_before : Q) : res Q :=
  let* comm := commission_one_side shares price plan monthly_shares_before in
  let slip := SLIPPAGE_PER_SHARE * shares in
  let extra := EXTRA_FEES_PER_SHARE * shares in
  Ok (comm + slip + extra).

(** *** Position sizing *)

(** [int(x)] on a float: truncation towards zero. *)
Definition py_int (x : Q) : Z :=
  if Qltb x 0 then Qceiling x else Qfloor x.

Definition shares_for_trade (equity price : Q) : res Q :=
  let dollars := equity * ALLOC_PCT in
  if Qleb dollars 0 || Qleb price 0 then Ok 0
  else
    let* raw := py_div dollars price in
    if FRACTIONAL_SHARES then Ok (py_max raw 0)
    else Ok (inject_Z (Z.max (py_int raw) 0)).

(** *** Ledger rows and run state *)

Inductive Signal : Set := long | short | skip.

Inductive ExitReason : Set :=
| missing | doji_skip | too_small | time_exit | stop_hit.

Definition Signal_eqb (a b : Signal) : bool :=
  match a, b with
  | long, long | short, short | skip, skip => true
  | _, _ => false
  end.

Definition ExitReason_eqb (a b : ExitReason) : bool :=
  match a, b with
  | missing, missing | doji_skip, doji_skip | too_small, too_small
  | time_exit, time_exit | stop_hit, stop_hit => true
  | _, _ => false
  end.

(** One dict appended to [rows]; [None] is a NaN (or absent) cell. *)
Record Row : Type := mkRow {
  date : Z;
  signal : Signal;
  first_bar_open : option Q;
  first_bar_close : option Q;
  entry_price : option Q;
  exit_price : option Q;
  exit_reason : ExitReason;
  stop_pct : option Q;
  stop_level : option Q;
  shares : Q;
  gross_points : option Q;
  gross_pnl : Q;
  gross_ret_pct : option Q;
  entry_cost : Q;
  exit_cost : Q;
  total_cost : Q;
  net_pnl : Q;
  net_ret_pct : Q;
  start_equity : Q;
  end_equity : Q;
  row_month_key : string;
  note : string
}.

(** The variables of [run] that live across iterations of its loop. *)
Record State : Type := mkState {
  equity : Q;
  monthly_vol : gmap string Q;
  rows : list Row
}.

Definition init_state : State :=
  {| equity := START_EQUITY; monthly_vol := ∅; rows := [] |}.

(** Lines 170-171:
    [if month_key not in monthly_vol: monthly_vol[month_key] = 0.0]. *)
Definition touch_month (m : gmap string Q) (k : string) : gmap string Q :=
  match m !! k with
  | None => <[k := 0]> m
  | Some _ => m
  end.

(** [monthly_vol[k] += sh]. *)
Definition dict_add (m : gmap string Q) (k : string) (sh : Q)
  : res (gmap string Q) :=
  let* old := dict_get m k in
  Ok (<[k := old + sh]> m).

(** Lines 241-255: the [for _, bar in subsequent.iterrows()] loop, with
    its [break];
    [exit_price] and [exit_reason] hold the values set before the loop. *)
Fixpoint scan_stop (sig : Signal) (stop_lvl : Q) (subsequent : list Bar)
    (exit_px : Q) (reason : ExitReason) : Q * ExitReason :=
  match subsequent with
  | [] => (exit_px, reason)
  | bar :: rest =>
      match sig with
      | long =>
          if Qleb (low bar) stop_lvl then (stop_lvl, stop_hit)
          else scan_stop sig stop_lvl rest exit_px reason
      | _ =>
          if Qleb stop_lvl (high bar) then (stop_lvl, stop_hit)
          else scan_stop sig stop_lvl rest exit_px reason
      end
  end.

(** Lines 231-235: the stop level of a trade. *)
Definition stop_level_for (sig : Signal) (entry stop : Q) : Q :=
  match sig with
  | long => entry * (1 - stop)
  | _ => entry * (1 + stop)
  end.

(** Lines 239-240: bars strictly after the entry bar and up to the exit
    bar. *)
Definition subsequent_bars (g : list Bar) (en ex : Bar) : list Bar :=
  List.filter
    (fun b => (date_local en <? date_local b)%Z
              && (date_local b <=? date_local ex)%Z) g.

(** Lines 164-286: body of the loop
    [for day, g in df.groupby("d", sort=True)], from the state before the
    session to the state after it. *)
Definition run_session (stop : Q) (st : State) (day : Z) (g0 : list Bar)
  : res State :=
  let g := sort_values date_local g0 in
  let fb := List.filter (fun b => String.eqb (t b) FIRST_BAR_TIME) g in
  let en := List.filter (fun b => String.eqb (t b) ENTRY_TIME) g in
  let ex := List.filter (fun b => String.eqb (t b) EXIT_TIME) g in
  let* mk := iloc0 (map month_key g) in
  let mv := touch_month (monthly_vol st) mk in
  let eq0 := equity st in
  match fb, en, ex with
  | fb0 :: _, en0 :: _, ex0 :: _ =>
      let f_open := open fb0 in
      let f_close := close fb0 in
      let entry := close en0 in
      let exit_1130 := close ex0 in
      if isclose f_close f_open then
        Ok {| equity := eq0; monthly_vol := mv;
              rows := rows st ++
                [ {| date := day; signal := skip;
                     first_bar_open := Some f_open;
                     first_bar_close := Some f_close;
                     entry_price := None; exit_price := None;
                     exit_reason := doji_skip;
                     stop_pct := None; stop_level := None;
                     shares := 0;
                     gross_points := None; gross_pnl := 0;
                     gross_ret_pct := None;
                     entry_cost := 0; exit_cost := 0; total_cost := 0;
                     net_pnl := 0; net_ret_pct := 0;
                     start_equity := eq0; end_equity := eq0;
                     row_month_key := mk; note := "Doji first bar" |} ] |}
      else
        let sig := if Qltb f_open f_close then long else short in
        let dir_ : Q := match sig with long => 1 | _ => -1 end in
        let* sh := shares_for_trade eq0 entry in
        if FRACTIONAL_SHARES && Qltb sh MIN_FRACTIONAL_SHARES then
          Ok {| equity := eq0; monthly_vol := mv;
                rows := rows st ++
                  [ {| date := day; signal := skip;
                       first_bar_open := Some f_open;
                       first_bar_close := Some f_close;
                       entry_price := Some entry; exit_price := None;
                       exit_reason := too_small;
                       stop_pct := None; stop_level := None;
                       shares := 0;
                       gross_points := Some 0; gross_pnl := 0;
                       gross_ret_pct := Some 0;
                       entry_cost := 0; exit_cost := 0; total_cost := 0;
                       net_pnl := 0; net_ret_pct := 0;
                       start_equity := eq0; end_equity := eq0;
                       row_month_key := mk;
                       note := "Equity too small for min fractional lot" |} ] |}
        else
          let* entry_cost_before := dict_get mv mk in
          let* entry_cost_ :=
            full_side_cost sh entry PRICING_PLAN entry_cost_before in
          let* mv1 := dict_add mv mk sh in
          let stop_lvl := stop_level_for sig entry stop in
          let subsequent := subsequent_bars g en0 ex0 in
          let out := scan_stop sig stop_lvl subsequent exit_1130 time_exit in
          let exit_px := fst out in
          let reason := snd out in
          let gross_points_ := dir_ * (exit_px - entry) in
          let* ratio := py_div exit_px entry in
          let gross_ret_pct_ := dir_ * (ratio - 1) in
          let gross_pnl_dol := sh * gross_points_ in
          let* exit_cost_before := dict_get mv1 mk in
          let* exit_cost_ :=
            full_side_cost sh exit_px PRICING_PLAN exit_cost_before in
          let* mv2 := dict_add mv1 mk sh in
          let total_cost_ := entry_cost_ + exit_cost_ in
          let net_pnl_dol := gross_pnl_dol - total_cost_ in
          let deployed := eq0 * ALLOC_PCT in
          let* net_ret_pct_ :=
            if Qltb 0 deployed then py_div net_pnl_dol deployed else Ok 0 in
          let start_eq := eq0 in
          let eq1 := eq0 + net_pnl_dol in
          Ok {| equity := eq1; monthly_vol := mv2;
                rows := rows st ++
                  [ {| date := day; signal := sig;
                       first_bar_open := Some f_open;
                       first_bar_close := Some f_close;
                       entry_price := Some entry;
                       exit_price := Some exit_px;
                       exit_reason := reason;
                       stop_pct := Some stop; stop_level := Some stop_lvl;
                       shares := sh;
                       gross_points := Some gross_points_;
                       gross_pnl := gross_pnl_dol;
                       gross_ret_pct := Some gross_ret_pct_;
                       entry_cost := entry_cost_; exit_cost := exit_cost_;
                       total_cost := total_cost_;
                       net_pnl := net_pnl_dol; net_ret_pct := net_ret_pct_;
                       start_equity := start_eq; end_equity := eq1;
                       row_month_key := mk; note := "" |} ] |}
  | _, _, _ =>
      Ok {| equity := eq0; monthly_vol := mv;
            rows := rows st ++
              [ {| date := day; signal := skip;
                   first_bar_open := None; first_bar_close := None;
                   entry_price := None; exit_price := None;
                   exit_reason := missing;
                   stop_pct := None; stop_level := None;
                   shares := 0;
                   gross_points := None; gross_pnl := 0;
                   gross_ret_pct := None;
                   entry_cost := 0; exit_cost := 0; total_cost := 0;
                   net_pnl := 0; net_ret_pct := 0;
                   start_equity := eq0; end_equity := eq0;
                   row_month_key := mk;
                   note := "Missing 09:30/09:45/11:30" |} ] |}
  end.

Fixpoint run_loop (stop : Q) (st : State) (groups : list (Z * list Bar))
  : res State :=
  match groups with
  | [] => Ok st
  | (day, g) :: rest =>
      let* st' := run_session stop st day g in
      run_loop stop st' rest
  end.

(** *** Summary *)

Record Summary : Type := mkSummary {
  pricing_plan : string;
  sum_stop_pct : Q;
  sum_start_equity : Q;
  ending_equity : Q;
  total_return : xfloat;
  trades : nat;
  wins : nat;
  losses : nat;
  win_rate : xfloat;
  stops_triggered : nat;
  max_drawdown : xfloat
}.

Definition count {A : Type} (p : A -> bool) (l : list A) : nat :=
  List.length (List.filter p l).

Definition is_trade (r : Row) : bool :=
  Signal_eqb (signal r) long || Signal_eqb (signal r) short.

(** The column [equity_curve_$]: [end_equity_$] is a number in every
    row, so [where(notna).ffill()] and the fill with [START_EQUITY] keep
    it as it is. *)
Definition equity_curve (ledger : list Row) : list Q :=
  map end_equity ledger.

(** Lines 302-303: [dd = equity_curve / equity_curve.cummax() - 1.0]. *)
Definition drawdowns (curve : list Q) : list xfloat :=
  map (fun p => x_sub (np_div (fst p) (snd p)) 1)
      (combine curve (cummax curve)).

(** Lines 292-319: the summary frame, from the sorted ledger. *)
Definition summarize (stop : Q) (ledger : list Row) : res Summary :=
  let valid := List.filter is_trade ledger in
  let n_trades := List.length valid in
  let wins_ := count (fun r => Qltb 0 (net_pnl r)) valid in
  let losses_ := count (fun r => Qltb (net_pnl r) 0) valid in
  let* win_rate_ :=
    match n_trades with
    | O => Ok NaN
    | _ =>
        let* q := py_div (inject_Z (Z.of_nat wins_))
                         (inject_Z (Z.of_nat n_trades)) in
        Ok (Fin (q * 100))
    end in
  let curve := equity_curve ledger in
  let ending := List.last curve START_EQUITY in
  let* total_return_pct :=
    if Qltb 0 START_EQUITY then
      let* q := py_div ending START_EQUITY in
      Ok (Fin ((q - 1) * 100))
    else Ok NaN in
  let dd := drawdowns curve in
  let max_dd_pct :=
    match dd with
    | [] => NaN
    | _ => x_scale (series_min dd) 100
    end in
  let stops_hit :=
    count (fun r => ExitReason_eqb (exit_reason r) stop_hit) ledger in
  Ok {| pricing_plan := PRICING_PLAN;
        sum_stop_pct := stop;
        sum_start_equity := py_round START_EQUITY 2;
        ending_equity := py_round ending 2;
        total_return := x_round total_return_pct 4;
        trades := n_trades;
        wins := wins_;
        losses := losses_;
        win_rate := x_round win_rate_ 2;
        stops_triggered := stops_hit;
        max_drawdown := x_round max_dd_pct 4 |}.

(** Line 288, [pd.DataFrame(rows).sort_values("date")]: a frame built
    from no row has no column to sort by. *)
Definition make_trades (rs : list Row) : res (list Row) :=
  match rs with
  | [] => Raise (KeyError "date")
  | _ => Ok (sort_values date rs)
  end.

(** [run], from the loaded rows to the two frames it writes out
    ([trades] and [summary]). *)
Definition run (raw : list Bar) (stop : Q) : res (list Row * Summary) :=
  let df := load_data raw in
  let* st := run_loop stop init_state (groupby d df) in
  let* ledger := make_trades (rows st) in
  let* summary := summarize stop ledger in
  Ok (ledger, summary).

End Backtest.

(* ===================================================================== *)
(** ** range_breakout.py                                                  *)
(* ===================================================================== *)

Module RangeBreakout.

Definition ENTRY_TIME : string := "09:30:00".
Definition EXIT_TIME : string := "11:30:00".

Record Bar : Type := mkBar {
  Datetime : Z;
  Date : Z;
  Time : string;      (* "HH:MM:SS" *)
  open : Q;
  high : Q;
  low : Q;
  close : Q
}.

Inductive Direction : Set := LONG | SHORT.
Inductive Result : Set := NO_HIT | HIT_TP | HIT_SL.

Record Row : Type := mkRow {
  row_Date : Z;
  row_Direction : Direction;
  row_Open : Q;
  row_Close : Q;
  row_Range : Q;
  row_TP : Q;
  row_SL : Q;
  row_Result : Result;
  row_Gain_Points : Q
}.

Definition direction (open_ close_ : Q) : Direction :=
  if Qltb open_ close_ then LONG else SHORT.

(** Lines 47-63: the [for _, row in session.iterrows()] loop; the pair is
    [(result, gain)], initially [("NO HIT", 0.0)]. *)
Fixpoint scan (dir : Direction) (tp sl x : Q) (session : list Bar)
  : Result * Q :=
  match session with
  | [] => (NO_HIT, 0)
  | row :: rest =>
      match dir with
      | LONG =>
          if Qleb tp (high row) then (HIT_TP, x)
          else if Qleb (low row) sl then (HIT_SL, - x)
          else scan dir tp sl x rest
      | SHORT =>
          if Qleb (low row) tp then (HIT_TP, x)
          else if Qleb sl (high row) then (HIT_SL, - x)
          else scan dir tp sl x rest
      end
  end.

Definition session_bars (g : list Bar) : list Bar :=
  List.filter
    (fun b => String.ltb ENTRY_TIME (Time b) && String.leb (Time b) EXIT_TIME)
    g.

(** Lines 20-75: body of [for date, group in df.groupby("Date")]; [None] is the
    [continue] of a day without a first candle. *)
Definition day_result (date : Z) (group : list Bar) : option Row :=
  let g := sort_values Datetime group in
  match List.filter (fun b => String.eqb (Time b) ENTRY_TIME) g with
  | [] => None
  | first :: _ =>
      let open_ := open first in
      let high_ := high first in
      let low_ := low first in
      let close_ := close first in
      let x := high_ - low_ in
      let dir := direction open_ close_ in
      let entry := close_ in
      let tp := match dir with LONG => entry + x | SHORT => entry - x end in
      let sl := match dir with LONG => entry - x | SHORT => entry + x end in
      let session := session_bars g in
      let out := scan dir tp sl x session in
      Some {| row_Date := date; row_Direction := dir;
              row_Open := open_; row_Close := close_;
              row_Range := py_round x 2;
              row_TP := py_round tp 2; row_SL := py_round sl 2;
              row_Result := fst out;
              row_Gain_Points := py_round (snd out) 2 |}
  end.

Definition results (df : list Bar) : list Row :=
  omap (fun p => day_result (fst p) (snd p)) (groupby Date df).

End RangeBreakout.

(* ===================================================================== *)
(** ** research_algo.py                                                   *)
(* ===================================================================== *)

Module ResearchAlgo.

Definition AFTER_TIMES : list string :=
  ["10:00"; "10:15"; "10:30"; "10:45"; "11:00"; "11:15"; "11:30"].

Record Bar : Type := mkBar {
  date_et : Z;
  day : Z;
  time_et : string;   (* "HH:MM" *)
  open : Q;
  high : Q;
  low : Q;
  close : Q
}.

Inductive Signal : Set := GREEN | RED | DOJI.

(** The column [Exit]: "STOP@HH:MM" or "11:30". *)
Inductive ExitUsed : Set :=
| STOP_at (time : string)
| AT_1130.

Record Row : Type := mkRow {
  row_Date : Z;
  FirstBar_Open : Q;
  FirstBar_Close : Q;
  Entry_Px : Q;
  Exit : ExitUsed;
  Exit_Px : option Q;
  row_Signal : Signal;
  Sign : Z;
  Stop_Points : Q;
  Stop_Hit : bool;
  Gain_Points : Q
}.

(** Lines 62-71: direction of the first bar. *)
Definition first_bar_direction (o0930 c0930 : Q) : Z * Signal :=
  if Qltb o0930 c0930 then (1%Z, GREEN)
  else if Qltb c0930 o0930 then ((-1)%Z, RED)
  else (0%Z, DOJI).

(** Lines 83-98: the two stop loops; the label of the first bar that
    breaches. *)
Fixpoint first_stop (sign : Z) (entry_px stop_pts : Q) (w : list Bar)
  : option string :=
  match w with
  | [] => None
  | r :: rest =>
      if (sign =? 1)%Z then
        if Qleb (low r) (entry_px - stop_pts) then Some (time_et r)
        else first_stop sign entry_px stop_pts rest
      else if (sign =? -1)%Z then
        if Qleb (entry_px + stop_pts) (high r) then Some (time_et r)
        else first_stop sign entry_px stop_pts rest
      else None
  end.

Definition isin (s : string) (l : list string) : bool :=
  existsb (String.eqb s) l.

(** Lines 47-123: body of [for day, g in df.groupby("day")]; [None] is
    [continue]. *)
Definition day_row (stop_pts : Q) (drop_doji : bool) (dy : Z) (g0 : list Bar)
  : option Row :=
  let g := sort_values date_et g0 in
  let first := List.filter (fun b => String.eqb (time_et b) "09:30") g in
  let exitb := List.filter (fun b => String.eqb (time_et b) "11:30") g in
  match first, exitb with
  | f :: _, e :: _ =>
      let o0930 := open f in
      let c0930 := close f in
      let entry_px := c0930 in
      let exit_px := close e in
      let sd := first_bar_direction o0930 c0930 in
      let sign := fst sd in
      if drop_doji && (sign =? 0)%Z then None
      else
        let intrawindow :=
          sort_values date_et
            (List.filter (fun b => isin (time_et b) AFTER_TIMES) g) in
        let stop := first_stop sign entry_px stop_pts intrawindow in
        let gain_pts :=
          match stop with
          | Some _ => - stop_pts
          | None =>
              if (sign =? 1)%Z then exit_px - entry_px
              else if (sign =? -1)%Z then entry_px - exit_px
              else 0
          end in
        Some {| row_Date := dy;
                FirstBar_Open := o0930; FirstBar_Close := c0930;
                Entry_Px := entry_px;
                Exit := match stop with
                        | Some tm => STOP_at tm
                        | None => AT_1130
                        end;
                Exit_Px := match stop with
                           | Some _ => None
                           | None => Some exit_px
                           end;
                row_Signal := snd sd; Sign := sign;
                Stop_Points := stop_pts;
                Stop_Hit := match stop with Some _ => true | None => false end;
                Gain_Points := gain_pts |}
  | _, _ => None
  end.

Definition compute_daily_points
    (df : list Bar) (stop_pts : Q) (drop_doji : bool) : res (list Row) :=
  let rows :=
    omap (fun p => day_row stop_pts drop_doji (fst p) (snd p))
         (groupby day df) in
  match rows with
  | [] => Raise (KeyError "Date")
  | _ => Ok (sort_values row_Date rows)
  end.

End ResearchAlgo.

(* ===================================================================== *)
(** ** range_breakout.py: output and statistics                           *)
(* ===================================================================== *)

Module RangeBreakoutStats.

Import RangeBreakout.







End RangeBreakoutStats.

(* ===================================================================== *)
(** ** backtest.py: the header check of [load_data]                        *)
(* ===================================================================== *)

Module LoadData.

(** The outcome of lines 94-99: [sys.exit] with the set of missing
    columns, or the frame's columns after the renaming. *)
Inductive checked : Type :=
| SystemExit (miss : gset string)
| Columns (cols : list string).

(** Lines 94-95: a header column read as "ate" is taken for "date" when
    there is no "date" column. *)
Definition rename_ate (columns : list string) : list string :=
  if bool_decide ("ate" ∈ columns) && negb (bool_decide ("date" ∈ columns))
  then map (fun c => if String.eqb c "ate" then "date" else c) columns
  else columns.

(** Line 96. *)
Definition need : gset string :=
  {[ "date"; "open"; "high"; "low"; "close" ]}.

(** Lines 97-99. *)
Definition check_columns (columns : list string) : checked :=
  let columns' := rename_ate columns in
  let miss := need ∖ list_to_set columns' in
  if bool_decide (miss = ∅) then Columns columns' else SystemExit miss.

End LoadData.

(* ===================================================================== *)
(** ** Vocabulary of the statements                                       *)
(* ===================================================================== *)

Import Backtest.

(** The plan identifiers [commission_one_side] knows. *)
Definition recognized (plan : string) : Prop :=
  plan = "pro_fixed" \/ plan = "pro_tiered" \/ plan = "lite".

(** Relations between a monthly volume and a tier threshold. *)
Definition threshold_below (v : Q) (th : threshold) : Prop :=
  match th with Upto q => q < v | Inf => False end.
Definition threshold_covers (v : Q) (th : threshold) : Prop :=
  match th with Upto q => v <= q | Inf => True end.

(** Thresholds strictly ascending, the unbounded one last. *)
Fixpoint ascending_tiers (tiers : list (threshold * Q)) : Prop :=
  match tiers with
  | [] => True
  | (Inf, _) :: rest => rest = []
  | (Upto q, _) :: rest =>
      match rest with
      | (Upto q', _) :: _ => q < q'
      | _ => True
      end /\ ascending_tiers rest
  end.

(** Rows in ascending order of a key (ties allowed), and keys strictly
    ascending. *)
Definition ascending {A : Type} (key : A -> Z) : list A -> Prop :=
  StronglySorted (fun a b => (key a <= key b)%Z).
Definition strictly_ascending : list Z -> Prop := StronglySorted Z.lt.

(** The bars of a session that carry a given time label, in timestamp
    order: [g[g["t"] == label]]. *)
Definition bars_at (label : string) (g0 : list Bar) : list Bar :=
  List.filter (fun b => String.eqb (t b) label) (sort_values date_local g0).

(** What a skipped session leaves behind: a zeroed row, the same equity,
    and a month counter that exists. *)
Record skip_session (st st' : State) (mk : string) (r : Row) : Prop := {
  sk_signal : signal r = skip;
  sk_shares : shares r = 0;
  sk_gross : gross_pnl r = 0;
  sk_entry_cost : entry_cost r = 0;
  sk_exit_cost : exit_cost r = 0;
  sk_total_cost : total_cost r = 0;
  sk_net : net_pnl r = 0;
  sk_net_ret : net_ret_pct r = 0;
  sk_exit_price : exit_price r = None;
  sk_equity : equity st' = equity st;
  sk_vol : monthly_vol st' = touch_month (monthly_vol st) mk
}.

(** What a traded session leaves behind, given its reference, entry and
    exit-deadline bars. *)
Record traded_session (stop : Q) (st st' : State) (mk : string)
    (g0 : list Bar) (fb0 en0 ex0 : Bar) (r : Row) : Prop := {
  tr_not_doji : isclose (close fb0) (open fb0) = false;
  tr_signal :
    signal r = if Qltb (open fb0) (close fb0) then long else short;
  tr_sized : shares_for_trade (equity st) (close en0) = Ok (shares r);
  tr_lot : MIN_FRACTIONAL_SHARES <= shares r;
  tr_entry : entry_price r = Some (close en0);
  tr_stop_pct : stop_pct r = Some stop;
  tr_stop_level :
    stop_level r = Some (stop_level_for (signal r) (close en0) stop);
  tr_exit_price :
    exit_price r =
    Some (fst (scan_stop (signal r)
                 (stop_level_for (signal r) (close en0) stop)
                 (subsequent_bars (sort_values date_local g0) en0 ex0)
                 (close ex0) time_exit));
  tr_exit_reason :
    exit_reason r =
    snd (scan_stop (signal r)
           (stop_level_for (signal r) (close en0) stop)
           (subsequent_bars (sort_values date_local g0) en0 ex0)
           (close ex0) time_exit);
  tr_total : total_cost r = entry_cost r + exit_cost r;
  tr_net : net_pnl r = gross_pnl r - total_cost r;
  tr_equity : equity st' = equity st + net_pnl r;
  tr_legs :
    exists v xp,
      touch_month (monthly_vol st) mk !! mk = Some v /\
      exit_price r = Some xp /\
      full_side_cost (shares r) (close en0) PRICING_PLAN v
        = Ok (entry_cost r) /\
      full_side_cost (shares r) xp PRICING_PLAN (v + shares r)
        = Ok (exit_cost r) /\
      monthly_vol st' =
        <[mk := v + shares r + shares r]>
          (<[mk := v + shares r]> (touch_month (monthly_vol st) mk))
}.

(** A ledger row as the compounding step writes it. *)
Definition row_ok (r : Row) : Prop :=
  end_equity r == start_equity r + net_pnl r /\
  (signal r = skip ->
     end_equity r = start_equity r /\ net_pnl r = 0 /\ shares r = 0) /\
  (start_equity r <= 0 -> signal r = skip).

(** Rows that hand equity [e] from one to the next. *)
Fixpoint chained (e : Q) (l : list Row) : Prop :=
  match l with
  | [] => True
  | r :: l' => start_equity r = e /\ row_ok r /\ chained (end_equity r) l'
  end.

(** The running sums [start + p1], [start + p1 + p2], ... *)
Fixpoint running_sum (start : Q) (pnl : list Q) : list Q :=
  match pnl with
  | [] => []
  | p :: pnl' => (start + p) :: running_sum (start + p) pnl'
  end.

(** *** Sample inputs *)

(** A bar of day [day] (all in January 2024) at [secs] seconds after
    midnight. *)
Definition bar_at (day : Z) (label : string) (secs : Z) (o h l c : Q) : Bar :=
  {| date_local := day * 86400 + secs; d := day; t := label;
     month_key := "2024-01"; open := o; high := h; low := l; close := c |}.

(** Day 1: green first bar, long from 400.5, stopped out at 10:00.
    Day 2: red first bar, short from 399, held to the 11:30 close.
    Day 3: no 09:45 bar. *)
Definition sample_raw : list Bar :=
  [ bar_at 1 "09:30" 34200 400 401 399.5 400.6;
    bar_at 1 "09:45" 35100 400.6 400.8 400.2 400.5;
    bar_at 1 "10:00" 36000 400.5 400.6 398 398.2;
    bar_at 1 "11:30" 41400 398.2 399 398 398.5;
    bar_at 2 "09:30" 34200 400 400.2 399 399.2;
    bar_at 2 "09:45" 35100 399.2 399.4 398.8 399;
    bar_at 2 "10:00" 36000 399 399.5 398 398.4;
    bar_at 2 "11:30" 41400 398.4 398.6 397 397.5;
    bar_at 3 "09:30" 34200 397 398 396 397.5;
    bar_at 3 "11:30" 41400 397 398 396 397.5 ].

(** A single day that cannot be traded: its only bar is the 10:00 one. *)
Definition quiet_raw : list Bar :=
  [ bar_at 1 "10:00" 36000 400 401 399 400.5 ].

(** With a stop of 300% a short from 100 that closes at 300 loses twice
    the equity; the next day starts from a negative balance. *)
Definition bust_stop : Q := 3.
Definition bust_raw : list Bar :=
  [ bar_at 1 "09:30" 34200 101 101.5 99 100;
    bar_at 1 "09:45" 35100 100 100.5 99.5 100;
    bar_at 1 "11:30" 41400 100 310 99 300;
    bar_at 2 "09:30" 34200 300 302 299 301;
    bar_at 2 "09:45" 35100 301 302 300 301;
    bar_at 2 "11:30" 41400 301 303 300 302 ].

(** The state of the loop after the first day of [bust_raw]. *)
Definition bust_state : State :=
  match run_loop bust_stop init_state (firstn 1 (groupby d (load_data bust_raw))) with
  | Ok st => st
  | Raise _ => init_state
  end.

(** A day whose first bar closes one ten-millionth above its open. *)
Definition near_doji_day : list Bar :=
  [ bar_at 1 "09:30" 34200 400 401 399 400.0000001;
    bar_at 1 "09:45" 35100 400 401 399 400.5;
    bar_at 1 "11:30" 41400 400.5 402 400 401 ].

(** A range-breakout day whose first candle closes exactly at its open,
    and one whose window holds no hit (first candle 100 -> 100.5, range 2,
    target 102.5, stop 98.5, 11:30 close 101). *)
Definition rb_bar (label : string) (secs : Z) (o h l c : Q) : RangeBreakout.Bar :=
  {| RangeBreakout.Datetime := 86400 + secs; RangeBreakout.Date := 1;
     RangeBreakout.Time := label;
     RangeBreakout.open := o; RangeBreakout.high := h;
     RangeBreakout.low := l; RangeBreakout.close := c |}.
Definition rb_flat_day : list RangeBreakout.Bar :=
  [ rb_bar "09:30:00" 34200 400 401 399 400;
    rb_bar "09:45:00" 35100 400 400.5 399.5 400.2 ].
Definition rb_quiet_day : list RangeBreakout.Bar :=
  [ rb_bar "09:30:00" 34200 100 101 99 100.5;
    rb_bar "10:00:00" 36000 100.5 101.5 100 101.2;
    rb_bar "11:30:00" 41400 101.2 101.4 100.8 101 ].

(** A bar that triggers the stop of a position. *)
Definition breaches (sig : Signal) (lvl : Q) (b : Bar) : Prop :=
  match sig with
  | long => low b <= lvl
  | _ => lvl <= high b
  end.

(** In the range-breakout variant: a bar that reaches the target, and one
    that reaches the stop. *)
Definition rb_hits_tp (dir : RangeBreakout.Direction) (tp : Q)
    (b : RangeBreakout.Bar) : Prop :=
  match dir with
  | RangeBreakout.LONG => tp <= RangeBreakout.high b
  | RangeBreakout.SHORT => RangeBreakout.low b <= tp
  end.
Definition rb_hits_sl (dir : RangeBreakout.Direction) (sl : Q)
    (b : RangeBreakout.Bar) : Prop :=
  match dir with
  | RangeBreakout.LONG => RangeBreakout.low b <= sl
  | RangeBreakout.SHORT => sl <= RangeBreakout.high b
  end.

(** The first day of [sample_raw], and the state of the loop after it. *)
Definition sample_day1 : list Bar := firstn 4 sample_raw.
Definition after_day1 : State :=
  match run_session STOP_PCT_DEFAULT init_state 1 sample_day1 with
  | Ok st => st
  | Raise _ => init_state
  end.

(** *** Vocabulary of the further properties *)





(** A float that is not above zero: a number <= 0, minus infinity, or
    NaN (an undefined figure). *)
Definition x_nonpos (x : xfloat) : Prop :=
  match x with
  | Fin q => q <= 0
  | NInf | NaN => True
  | PInf => False
  end.

(** A definite value that is not above zero. *)
Definition below_zero (x : xfloat) : Prop :=
  match x with Fin q => q <= 0 | NInf => True | _ => False end.

(** A series that never falls. *)
Fixpoint never_falls (curve : list Q) : Prop :=
  match curve with
  | [] => True
  | x :: rest =>
      match rest with
      | [] => True
      | y :: _ => x <= y
      end /\ never_falls rest
  end.

(** The volume a month holds (an absent month holds none), and the shares
    the rows of a ledger have traded in a month, both legs counted. *)
Definition month_volume (m : gmap string Q) (k : string) : Q :=
  default 0 (m !! k).
Fixpoint traded_volume (k : string) (l : list Row) : Q :=
  match l with
  | [] => 0
  | r :: l' =>
      (if String.eqb (row_month_key r) k then shares r + shares r else 0)
      + traded_volume k l'
  end.

(** Two winning days: a long from 101 closed at 110, then a short from 109
    closed at 100. *)
Definition winning_raw : list Bar :=
  [ bar_at 1 "09:30" 34200 100 101.5 99.5 101;
    bar_at 1 "09:45" 35100 101 101.5 100.8 101;
    bar_at 1 "11:30" 41400 109 110.5 108.5 110;
    bar_at 2 "09:30" 34200 110 110.5 108.5 109;
    bar_at 2 "09:45" 35100 109 109.2 108.6 109;
    bar_at 2 "11:30" 41400 101 101.5 99.5 100 ].
Definition winning_ledger : list Row :=
  match run winning_raw STOP_PCT_DEFAULT with
  | Ok (ledger, _) => ledger
  | Raise _ => []
  end.

(** Several range-breakout days: a target hit, a flat candle and a day
    without a hit. *)
Definition rb_day_bar (day : Z) (label : string) (secs : Z) (o h l c : Q)
  : RangeBreakout.Bar :=
  {| RangeBreakout.Datetime := day * 86400 + secs; RangeBreakout.Date := day;
     RangeBreakout.Time := label;
     RangeBreakout.open := o; RangeBreakout.high := h;
     RangeBreakout.low := l; RangeBreakout.close := c |}.
Definition rb_week : list RangeBreakout.Bar :=
  [ rb_day_bar 1 "09:30:00" 34200 100 101 99 100.5;
    rb_day_bar 1 "10:00:00" 36000 100.5 103 100 102.8;
    rb_day_bar 2 "10:00:00" 36000 102 103 101 102.5;
    rb_day_bar 3 "09:30:00" 34200 102 103 101 101.5;
    rb_day_bar 3 "10:00:00" 36000 101.5 104 101 103.8;
    rb_day_bar 4 "09:30:00" 34200 103 104 102 103.5;
    rb_day_bar 4 "11:30:00" 41400 103.5 104 103 103.6 ].

(** *** Points study: the scanned window and a sample week *)
(** The bars of a day that [compute_daily_points] scans for a stop:
    those labelled with one of [AFTER_TIMES], in timestamp order. *)
Definition ra_window (g0 : list ResearchAlgo.Bar) : list ResearchAlgo.Bar :=
  sort_values ResearchAlgo.date_et
    (List.filter
       (fun b => ResearchAlgo.isin (ResearchAlgo.time_et b)
                   ResearchAlgo.AFTER_TIMES)
       (sort_values ResearchAlgo.date_et g0)).

(** A bar of the points study. *)
Definition ra_bar (dy : Z) (label : string) (secs : Z) (o h l c : Q)
  : ResearchAlgo.Bar :=
  {| ResearchAlgo.date_et := dy * 86400 + secs; ResearchAlgo.day := dy;
     ResearchAlgo.time_et := label;
     ResearchAlgo.open := o; ResearchAlgo.high := h;
     ResearchAlgo.low := l; ResearchAlgo.close := c |}.

(** Day 1: green first bar, stopped at 10:15.  Day 2: red first bar, held
    to 11:30.  Day 3: doji.  Day 4: no 11:30 bar. *)
Definition ra_week : list ResearchAlgo.Bar :=
  [ ra_bar 1 "09:30" 34200 400 401.5 399.5 401;
    ra_bar 1 "10:00" 36000 401 401.2 400.4 400.6;
    ra_bar 1 "10:15" 36900 400.6 400.7 399.8 400;
    ra_bar 1 "11:30" 41400 400 400.5 399.5 400.2;
    ra_bar 2 "09:30" 34200 400 400.2 398.8 399;
    ra_bar 2 "10:00" 36000 399 399.6 398.5 398.8;
    ra_bar 2 "11:30" 41400 398.8 399 398 398.4;
    ra_bar 3 "09:30" 34200 398 398.5 397.5 398;
    ra_bar 3 "11:30" 41400 398 399 397 398.6;
    ra_bar 4 "09:30" 34200 398 399 397 398.5 ].

(** The rows of the sample week, and its first (stopped) day. *)
Definition ra_week_rows : list ResearchAlgo.Row :=
  match ResearchAlgo.compute_daily_points ra_week 1 false with
  | Ok rows => rows
  | Raise _ => []
  end.

Definition ra_stopped_row : option ResearchAlgo.Row := head ra_week_rows.


(* ===================================================================== *)
(** * Properties                                                          *)
(* ===================================================================== *)

(** ** Comparisons and the error monad *)

Lemma Qleb_le (x y : Q) : Qleb x y = true <-> x <= y.
Proof. unfold Qleb. apply Qle_bool_iff. Qed.

Lemma Qleb_gt (x y : Q) : Qleb x y = false <-> y < x.
Proof.
  unfold Qleb. split; intros H.
  - apply Qnot_le_lt. intros Hle. apply Qle_bool_iff in Hle. congruence.
  - destruct (Qle_bool x y) eqn:E; [|reflexivity].
    apply Qle_bool_iff in E. lra.
Qed.

Lemma Qltb_lt (x y : Q) : Qltb x y = true <-> x < y.
Proof.
  unfold Qltb. rewrite negb_true_iff. apply (Qleb_gt y x).
Qed.

Lemma Qltb_ge (x y : Q) : Qltb x y = false <-> y <= x.
Proof.
  unfold Qltb. rewrite negb_false_iff. apply (Qleb_le y x).
Qed.

Lemma Qeqb_eq (x y : Q) : Qeqb x y = true <-> x == y.
Proof. unfold Qeqb. apply Qeq_bool_iff. Qed.

Lemma Qeqb_neq (x y : Q) : Qeqb x y = false <-> ~ x == y.
Proof.
  rewrite <- Qeqb_eq. destruct (Qeqb x y); split; congruence.
Qed.

(** Case analysis on a comparison, leaving its meaning in the context. *)
Ltac case_Q c :=
  let E := fresh "E" in
  destruct c eqn:E;
  [ first [ apply Qleb_le in E | apply Qltb_lt in E | apply Qeqb_eq in E ]
  | first [ apply Qleb_gt in E | apply Qltb_ge in E | apply Qeqb_neq in E ] ].

Lemma py_max_ge_l (a b : Q) : a <= py_max a b.
Proof. unfold py_max. case_Q (Qltb a b); lra. Qed.

Lemma py_max_ge_r (a b : Q) : b <= py_max a b.
Proof. unfold py_max. case_Q (Qltb a b); lra. Qed.

Lemma py_min_le_l (a b : Q) : py_min a b <= a.
Proof. unfold py_min. case_Q (Qltb b a); lra. Qed.

Lemma py_min_le_r (a b : Q) : py_min a b <= b.
Proof. unfold py_min. case_Q (Qltb b a); lra. Qed.

Lemma py_max_refl (a : Q) : py_max a a = a.
Proof. unfold py_max. destruct (Qltb a a); reflexivity. Qed.

Lemma py_div_ok (a b : Q) : ~ b == 0 -> py_div a b = Ok (a / b).
Proof. intros H. unfold py_div. apply Qeqb_neq in H. rewrite H. reflexivity. Qed.

Lemma bind_ok {A B : Type} (m : res A) (k : A -> res B) (b : B) :
  bind m k = Ok b -> exists a, m = Ok a /\ k a = Ok b.
Proof. destruct m as [a|e]; simpl; [eauto | discriminate]. Qed.

(** ** Cost model *)

Lemma guard_true (shares price : Q) :
  shares <= 0 \/ price <= 0 -> Qleb shares 0 || Qleb price 0 = true.
Proof.
  intros [H|H]; apply orb_true_iff; [left|right]; apply Qleb_le; exact H.
Qed.

Lemma guard_false (shares price : Q) :
  0 < shares -> 0 < price -> Qleb shares 0 || Qleb price 0 = false.
Proof.
  intros Hs Hp. apply orb_false_iff. split; apply Qleb_gt; assumption.
Qed.

Lemma commission_guarded (shares price : Q) (plan : string) (vol : Q) :
  shares <= 0 \/ price <= 0 ->
  commission_one_side shares price plan vol = Ok 0.
Proof.
  intros H. unfold commission_one_side. rewrite (guard_true _ _ H). reflexivity.
Qed.

(** The plan of [run] is a recognised one: its cost legs never raise. *)
Lemma full_side_cost_pro_fixed (shares price vol : Q) :
  exists c, full_side_cost shares price PRICING_PLAN vol = Ok c.
Proof.
  unfold full_side_cost, commission_one_side, PRICING_PLAN.
  destruct (Qleb shares 0 || Qleb price 0); simpl; eauto.
Qed.

Lemma unrecognized_eqb (plan : string) :
  ~ recognized plan ->
  String.eqb plan "pro_fixed" = false /\
  String.eqb plan "pro_tiered" = false /\
  String.eqb plan "lite" = false.
Proof.
  unfold recognized. intros H.
  repeat split; apply String.eqb_neq; intros ->; apply H; auto.
Qed.

(** C6 (as stated, refuted): an unknown plan identifier does not raise when
    the share quantity is zero; the guard on [shares] and [price] answers
    first, with a cost of 0. *)
Lemma C6_unknown_plan_no_error_on_zero_shares :
  ~ recognized "bogus" /\
  commission_one_side 0 10 "bogus" 0 = Ok 0 /\
  is_ok (full_side_cost 0 10 "bogus" 0) = true.
Proof.
  split; [|split; reflexivity].
  unfold recognized. intros [H|[H|H]]; discriminate H.
Qed.

(** C6 (amended): for a plan identifier that is none of pro_fixed,
    pro_tiered, lite, the cost model raises the configuration error
    (ValueError) for every positive share quantity and positive price and
    every monthly volume; when shares <= 0 or price <= 0 it returns a
    commission of 0 without raising. *)
Theorem C6_unknown_plan_raises (plan : string) (shares price vol : Q) :
  ~ recognized plan ->
  (0 < shares -> 0 < price ->
     commission_one_side shares price plan vol
       = Raise (ValueError "Unknown PRICING_PLAN") /\
     full_side_cost shares price plan vol
       = Raise (ValueError "Unknown PRICING_PLAN")) /\
  (shares <= 0 \/ price <= 0 ->
     commission_one_side shares price plan vol = Ok 0 /\
     is_ok (full_side_cost shares price plan vol) = true).
Proof.
  intros Hplan. destruct (unrecognized_eqb plan Hplan) as (H1 & H2 & H3).
  split.
  - intros Hs Hp.
    assert (Hc : commission_one_side shares price plan vol
                 = Raise (ValueError "Unknown PRICING_PLAN")).
    { unfold commission_one_side.
      rewrite (guard_false _ _ Hs Hp), H1, H2, H3. reflexivity. }
    split; [exact Hc|]. unfold full_side_cost. rewrite Hc. reflexivity.
  - intros Hg. pose proof (commission_guarded shares price plan vol Hg) as Hc.
    split; [exact Hc|]. unfold full_side_cost. rewrite Hc. reflexivity.
Qed.

Lemma C6_unknown_plan_raises_witness :
  (commission_one_side 10 400 "bogus" 0
     = Raise (ValueError "Unknown PRICING_PLAN") /\
   full_side_cost 10 400 "bogus" 0
     = Raise (ValueError "Unknown PRICING_PLAN")).
Proof.
  refine (proj1 (C6_unknown_plan_raises "bogus" 10 400 0 _) _ _).
  - unfold recognized. intros [H|[H|H]]; discriminate H.
  - reflexivity.
  - reflexivity.
Defined.

(** C7: when shares <= 0 or price <= 0 the one-sided cost (commission plus
    slippage plus pass-through fees) is 0, whatever the plan identifier and
    the monthly volume; the commission itself is the float 0.0. *)
Theorem C7_no_op_trade_costs_nothing (shares price : Q) (plan : string) (vol : Q) :
  shares <= 0 \/ price <= 0 ->
  commission_one_side shares price plan vol = Ok 0 /\
  exists cost, full_side_cost shares price plan vol = Ok cost /\ cost == 0.
Proof.
  intros Hg. pose proof (commission_guarded shares price plan vol Hg) as Hc.
  split; [exact Hc|].
  unfold full_side_cost. rewrite Hc. simpl.
  eexists. split; [reflexivity|].
  unfold SLIPPAGE_PER_SHARE, EXTRA_FEES_PER_SHARE. ring.
Qed.

Lemma C7_no_op_trade_costs_nothing_witness :
  commission_one_side (-3) 400 "pro_tiered" 250000 = Ok 0 /\
  exists cost, full_side_cost (-3) 400 "pro_tiered" 250000 = Ok cost /\ cost == 0.
Proof.
  apply (C7_no_op_trade_costs_nothing (-3) 400 "pro_tiered" 250000).
  left. vm_compute. discriminate.
Defined.

(** C8: for shares > 0 and price > 0, the commission of the flat-rate and
    of the volume-tiered plan is at most 0.01 * price * shares, at every
    monthly volume. *)
Theorem C8_commission_capped (shares price : Q) (plan : string) (vol : Q) :
  0 < shares -> 0 < price ->
  plan = "pro_fixed" \/ plan = "pro_tiered" ->
  exists c, commission_one_side shares price plan vol = Ok c /\
            c <= 0.01 * price * shares.
Proof.
  intros Hs Hp Hplan. unfold commission_one_side.
  rewrite (guard_false _ _ Hs Hp).
  destruct Hplan as [-> | ->]; simpl; eexists; (split; [reflexivity|]).
  - eapply Qle_trans; [apply py_min_le_r|].
    unfold PF_MAX_RATE_OF_TRADE. lra.
  - eapply Qle_trans; [apply py_min_le_r|].
    unfold PT_MAX_RATE_OF_TRADE. lra.
Qed.

Lemma C8_commission_capped_witness :
  exists c, commission_one_side 0.25 400 "pro_fixed" 0 = Ok c /\
            c <= 0.01 * 400 * 0.25.
Proof.
  apply (C8_commission_capped 0.25 400 "pro_fixed" 0).
  - reflexivity.
  - reflexivity.
  - left. reflexivity.
Defined.

(** ** Tiered rate *)

Lemma le_threshold_covers (v : Q) (th : threshold) :
  le_threshold v th = true <-> threshold_covers v th.
Proof.
  destruct th as [q|]; simpl; [apply Qleb_le | tauto].
Qed.

Lemma le_threshold_below (v : Q) (th : threshold) :
  le_threshold v th = false <-> threshold_below v th.
Proof.
  destruct th as [q|]; simpl; [apply Qleb_gt | split; [discriminate | tauto]].
Qed.

(** What the [for threshold, rate in PT_TIERS] loop returns: the rate of
    the first tier whose threshold is not below the volume. *)
Lemma first_tier_spec (v : Q) (tiers : list (threshold * Q)) (rate : Q) :
  first_tier v tiers = Some rate <->
  exists pre th post,
    tiers = pre ++ (th, rate) :: post /\
    Forall (fun tr => threshold_below v (fst tr)) pre /\
    threshold_covers v th.
Proof.
  induction tiers as [|[th r] rest IH]; simpl.
  - split; [discriminate|]. intros (pre & th & post & H & _).
    destruct pre; discriminate H.
  - destruct (le_threshold v th) eqn:E.
    + split.
      * intros [= <-]. exists [], th, rest. repeat split; [constructor|].
        now apply le_threshold_covers.
      * intros (pre & th' & post & H & Hpre & Hth).
        destruct pre as [|[th0 r0] pre].
        -- injection H as -> ->. reflexivity.
        -- injection H as -> -> ->. inversion Hpre as [|? ? Hb _]; subst.
           apply le_threshold_below in Hb. simpl in Hb. congruence.
    + rewrite IH. split.
      * intros (pre & th' & post & -> & Hpre & Hth).
        exists ((th, r) :: pre), th', post. repeat split; [|assumption].
        constructor; [|assumption]. now apply le_threshold_below.
      * intros (pre & th' & post & H & Hpre & Hth).
        destruct pre as [|[th0 r0] pre].
        -- injection H as -> ->. apply le_threshold_covers in Hth. congruence.
        -- injection H as -> -> ->. inversion Hpre; subst.
           exists pre, th', post. repeat split; assumption.
Qed.

Lemma PT_TIERS_ascending : ascending_tiers PT_TIERS.
Proof. simpl. repeat split; reflexivity. Qed.

(** The table ends with the unbounded tier, so the loop always returns. *)
Lemma first_tier_PT_TIERS (v : Q) :
  first_tier v PT_TIERS = Some (rate_for_tiered v).
Proof.
  unfold rate_for_tiered, PT_TIERS. simpl.
  repeat match goal with
         | |- context [Qleb ?a ?b] => destruct (Qleb a b)
         end; reflexivity.
Qed.

Lemma rate_for_tiered_antitone (v v' : Q) :
  v <= v' -> rate_for_tiered v' <= rate_for_tiered v.
Proof.
  intros Hle. unfold rate_for_tiered, PT_TIERS. simpl.
  case_Q (Qleb v 300000); case_Q (Qleb v' 300000);
  case_Q (Qleb v 3000000); case_Q (Qleb v' 3000000);
  case_Q (Qleb v 20000000); case_Q (Qleb v' 20000000);
  case_Q (Qleb v 100000000); case_Q (Qleb v' 100000000);
  lra.
Qed.

(** C4: for a monthly volume v >= 0 read before a leg, the tiered plan's
    per-share rate is the rate of the first tier of the ascending table
    whose threshold is >= v (the last threshold being unbounded); that
    rate is what the pro_tiered commission multiplies the shares by; and
    the rate never increases with v. *)
Theorem C4_tiered_rate_first_tier (v : Q) :
  0 <= v ->
  ascending_tiers PT_TIERS /\
  (exists pre th post,
     PT_TIERS = pre ++ (th, rate_for_tiered v) :: post /\
     Forall (fun tr => threshold_below v (fst tr)) pre /\
     threshold_covers v th) /\
  (forall shares price, 0 < shares -> 0 < price ->
     commission_one_side shares price "pro_tiered" v
     = Ok (py_min (py_max (rate_for_tiered v * shares) PT_MIN_PER_ORDER)
                  (PT_MAX_RATE_OF_TRADE * (price * shares)))) /\
  (forall v', v <= v' -> rate_for_tiered v' <= rate_for_tiered v).
Proof.
  intros _. split; [apply PT_TIERS_ascending|]. split; [|split].
  - apply first_tier_spec, first_tier_PT_TIERS.
  - intros shares price Hs Hp. unfold commission_one_side.
    rewrite (guard_false _ _ Hs Hp). reflexivity.
  - intros v'. apply rate_for_tiered_antitone.
Qed.

Lemma C4_tiered_rate_first_tier_witness :
  rate_for_tiered 250000 = 0.0035 /\
  rate_for_tiered 450000 = 0.0020 /\
  rate_for_tiered 450000 <= rate_for_tiered 250000.
Proof.
  split; [reflexivity|]. split; [reflexivity|].
  refine (proj2 (proj2 (proj2 (C4_tiered_rate_first_tier 250000 _))) 450000 _).
  - vm_compute. discriminate.
  - vm_compute. discriminate.
Defined.

(** ** Sorting and grouping *)

Section SortValues.
Context {A : Type} (key : A -> Z).

Lemma insert_by_In (x : A) (l : list A) (b : A) :
  In b (insert_by key x l) <-> b = x \/ In b l.
Proof.
  induction l as [|y l IH]; simpl.
  - intuition.
  - destruct (key x <=? key y)%Z; simpl; [intuition|].
    rewrite IH. intuition.
Qed.

Lemma sort_values_In (l : list A) (b : A) :
  In b (sort_values key l) <-> In b l.
Proof.
  induction l as [|x l IH]; simpl; [tauto|].
  unfold sort_values in *. simpl. rewrite insert_by_In, IH. intuition.
Qed.

Lemma insert_by_length (x : A) (l : list A) :
  List.length (insert_by key x l) = S (List.length l).
Proof.
  induction l as [|y l IH]; simpl; [reflexivity|].
  destruct (key x <=? key y)%Z; simpl; [reflexivity | now rewrite IH].
Qed.

Lemma sort_values_length (l : list A) :
  List.length (sort_values key l) = List.length l.
Proof.
  induction l as [|x l IH]; simpl; [reflexivity|].
  unfold sort_values in *. simpl. now rewrite insert_by_length, IH.
Qed.

Lemma sort_values_nonempty (l : list A) :
  l <> [] -> sort_values key l <> [].
Proof.
  intros Hl Hs. apply (f_equal (@List.length A)) in Hs.
  rewrite sort_values_length in Hs. destruct l; [congruence | discriminate].
Qed.

Lemma insert_by_ascending (x : A) (l : list A) :
  ascending key l -> ascending key (insert_by key x l).
Proof.
  unfold ascending. induction 1 as [|y l Hs IH Hy]; simpl.
  - repeat constructor.
  - destruct (key x <=? key y)%Z eqn:E.
    + apply Z.leb_le in E. constructor; [now constructor|].
      constructor; [exact E|].
      eapply List.Forall_impl; [|exact Hy]. simpl. intros; lia.
    + apply Z.leb_gt in E. constructor; [exact IH|].
      apply List.Forall_forall. intros b Hb. apply insert_by_In in Hb.
      destruct Hb as [->|Hb]; [lia|].
      rewrite List.Forall_forall in Hy. now apply Hy.
Qed.

Lemma sort_values_ascending (l : list A) : ascending key (sort_values key l).
Proof.
  induction l as [|x l IH]; [constructor|].
  unfold sort_values in *. simpl. now apply insert_by_ascending.
Qed.

(** Sorting a frame that is already in order changes nothing. *)
Lemma sort_values_id (l : list A) :
  ascending key l -> sort_values key l = l.
Proof.
  unfold ascending. induction 1 as [|x l Hs IH Hx]; [reflexivity|].
  unfold sort_values in *. simpl. rewrite IH.
  destruct l as [|y l]; [reflexivity|]. simpl.
  inversion Hx as [|? ? Hxy _]; subst.
  apply Z.leb_le in Hxy. now rewrite Hxy.
Qed.

Lemma filter_ascending (p : A -> bool) (l : list A) :
  ascending key l -> ascending key (List.filter p l).
Proof.
  unfold ascending. induction 1 as [|x l Hs IH Hx]; simpl; [constructor|].
  destruct (p x); [|exact IH]. constructor; [exact IH|].
  apply List.Forall_forall. intros b Hb. apply filter_In in Hb as [Hb _].
  rewrite List.Forall_forall in Hx. now apply Hx.
Qed.

Lemma strictly_ascending_map (l : list A) :
  strictly_ascending (map key l) -> ascending key l.
Proof.
  unfold strictly_ascending, ascending.
  induction l as [|x l IH]; simpl; intros H; [constructor|].
  inversion H as [|? ? Hs Hx]; subst. constructor; [now apply IH|].
  rewrite List.Forall_map in Hx. eapply List.Forall_impl; [|exact Hx].
  simpl. intros; lia.
Qed.

Lemma groupby_keys (df : list A) :
  map fst (groupby key df) = group_keys (map key df).
Proof.
  unfold groupby. rewrite map_map. simpl. apply map_id.
Qed.

End SortValues.

Lemma insert_key_In (k : Z) (l : list Z) (z : Z) :
  In z (insert_key k l) <-> z = k \/ In z l.
Proof.
  induction l as [|y l IH]; simpl; [intuition|].
  destruct (k <? y)%Z eqn:E1; simpl; [intuition|].
  destruct (k =? y)%Z eqn:E2; simpl.
  - apply Z.eqb_eq in E2. subst. intuition.
  - rewrite IH. intuition.
Qed.

Lemma insert_key_ascending (k : Z) (l : list Z) :
  strictly_ascending l -> strictly_ascending (insert_key k l).
Proof.
  unfold strictly_ascending. induction 1 as [|y l Hs IH Hy]; simpl.
  - repeat constructor.
  - destruct (k <? y)%Z eqn:E1.
    + apply Z.ltb_lt in E1. constructor; [now constructor|].
      constructor; [exact E1|].
      eapply List.Forall_impl; [|exact Hy]. simpl. intros; lia.
    + destruct (k =? y)%Z eqn:E2; [now constructor|].
      apply Z.ltb_ge in E1. apply Z.eqb_neq in E2.
      constructor; [exact IH|].
      apply List.Forall_forall. intros b Hb. apply insert_key_In in Hb.
      destruct Hb as [->|Hb]; [lia|].
      rewrite List.Forall_forall in Hy. now apply Hy.
Qed.

Lemma group_keys_ascending (ks : list Z) : strictly_ascending (group_keys ks).
Proof.
  induction ks as [|k ks IH]; [constructor|].
  unfold group_keys in *. simpl. now apply insert_key_ascending.
Qed.

Lemma group_keys_In (ks : list Z) (z : Z) : In z (group_keys ks) <-> In z ks.
Proof.
  induction ks as [|k ks IH]; simpl; [tauto|].
  unfold group_keys in *. simpl. rewrite insert_key_In, IH. intuition.
Qed.

(** No group of a [groupby] is empty. *)
Lemma groupby_nonempty {A : Type} (key : A -> Z) (df : list A) :
  Forall (fun kg => snd kg <> []) (groupby key df).
Proof.
  unfold groupby. rewrite List.Forall_map. apply List.Forall_forall.
  intros k Hk. simpl. apply group_keys_In, in_map_iff in Hk.
  destruct Hk as (b & <- & Hb). intros Hnil.
  assert (Hin : In b (List.filter (fun b0 => (key b0 =? key b)%Z) df)).
  { apply filter_In. split; [exact Hb | apply Z.eqb_refl]. }
  rewrite Hnil in Hin. exact Hin.
Qed.

Lemma group_keys_nonempty (ks : list Z) : ks <> [] -> group_keys ks <> [].
Proof.
  destruct ks as [|k ks]; [congruence|]. intros _ Hnil.
  assert (H : In k (group_keys (k :: ks))) by (apply group_keys_In; now left).
  rewrite Hnil in H. exact H.
Qed.

(** ** One session of the loop *)

Lemma dict_get_inv (m : gmap string Q) (k : string) (v : Q) :
  dict_get m k = Ok v -> m !! k = Some v.
Proof. unfold dict_get. destruct (m !! k); [congruence | discriminate]. Qed.

Lemma dict_add_inv (m m' : gmap string Q) (k : string) (sh : Q) :
  dict_add m k sh = Ok m' ->
  exists v, m !! k = Some v /\ m' = <[k := v + sh]> m.
Proof.
  unfold dict_add. intros H. apply bind_ok in H as (v & Hv & H).
  apply dict_get_inv in Hv. injection H as <-. eauto.
Qed.

Lemma touch_month_lookup (m : gmap string Q) (k : string) :
  exists v, touch_month m k !! k = Some v.
Proof.
  unfold touch_month. destruct (m !! k) as [v|] eqn:E.
  - eauto.
  - exists 0. apply lookup_insert_eq.
Qed.

(** Every way [run_session] can return: one row is appended, and the
    session is either skipped (for one of three reasons) or traded. *)
Lemma run_session_inv (stop : Q) (st : State) (day : Z) (g0 : list Bar)
    (st' : State) :
  run_session stop st day g0 = Ok st' ->
  exists mk r,
    iloc0 (map month_key (sort_values date_local g0)) = Ok mk /\
    rows st' = rows st ++ [r] /\
    date r = day /\ row_month_key r = mk /\
    start_equity r = equity st /\ end_equity r = equity st' /\
    ((skip_session st st' mk r /\ exit_reason r = missing /\
      first_bar_open r = None /\ first_bar_close r = None /\
      (bars_at FIRST_BAR_TIME g0 = [] \/ bars_at ENTRY_TIME g0 = [] \/
       bars_at EXIT_TIME g0 = []))
     \/
     exists fb0 fbs en0 ens ex0 exs,
       bars_at FIRST_BAR_TIME g0 = fb0 :: fbs /\
       bars_at ENTRY_TIME g0 = en0 :: ens /\
       bars_at EXIT_TIME g0 = ex0 :: exs /\
       first_bar_open r = Some (open fb0) /\
       first_bar_close r = Some (close fb0) /\
       ((skip_session st st' mk r /\ exit_reason r = doji_skip /\
         isclose (close fb0) (open fb0) = true)
        \/
        (skip_session st st' mk r /\ exit_reason r = too_small /\
         isclose (close fb0) (open fb0) = false /\
         exists sh, shares_for_trade (equity st) (close en0) = Ok sh /\
                    sh < MIN_FRACTIONAL_SHARES)
        \/
        traded_session stop st st' mk g0 fb0 en0 ex0 r)).
Proof.
  unfold run_session. intros H.
  apply bind_ok in H as (mk & Hmk & H).
  fold (bars_at FIRST_BAR_TIME g0) in H.
  fold (bars_at ENTRY_TIME g0) in H.
  fold (bars_at EXIT_TIME g0) in H.
  exists mk.
  destruct (bars_at FIRST_BAR_TIME g0) as [|fb0 fbs] eqn:Efb;
    [|destruct (bars_at ENTRY_TIME g0) as [|en0 ens] eqn:Een;
      [|destruct (bars_at EXIT_TIME g0) as [|ex0 exs] eqn:Eex]].
  1-3: injection H as <-; eexists; simpl; (split; [exact Hmk|]);
       (repeat (split; [reflexivity|])); left;
       (split; [constructor; reflexivity|]);
       (repeat (split; [reflexivity|])); auto.
  destruct (isclose (close fb0) (open fb0)) eqn:Eclose.
  { injection H as <-. eexists. simpl. split; [exact Hmk|].
    repeat (split; [reflexivity|]).
    right. exists fb0, fbs, en0, ens, ex0, exs.
    repeat (split; [reflexivity|]). left.
    split; [constructor; reflexivity|]. split; [reflexivity | exact Eclose]. }
  apply bind_ok in H as (sh & Hsh & H).
  destruct (FRACTIONAL_SHARES && Qltb sh MIN_FRACTIONAL_SHARES) eqn:Esmall.
  { injection H as <-. eexists. simpl. split; [exact Hmk|].
    repeat (split; [reflexivity|]).
    right. exists fb0, fbs, en0, ens, ex0, exs.
    repeat (split; [reflexivity|]). right. left.
    split; [constructor; reflexivity|]. split; [reflexivity|].
    split; [exact Eclose|]. exists sh. split; [exact Hsh|].
    apply andb_true_iff in Esmall as [_ E]. now apply Qltb_lt. }
  apply bind_ok in H as (ecb & Hecb & H).
  apply bind_ok in H as (ec & Hec & H).
  apply bind_ok in H as (mv1 & Hmv1 & H).
  apply bind_ok in H as (ratio & Hratio & H).
  apply bind_ok in H as (xcb & Hxcb & H).
  apply bind_ok in H as (xc & Hxc & H).
  apply bind_ok in H as (mv2 & Hmv2 & H).
  apply bind_ok in H as (nrp & Hnrp & H).
  injection H as <-. eexists. simpl. split; [exact Hmk|].
  repeat (split; [reflexivity|]).
  right. exists fb0, fbs, en0, ens, ex0, exs.
  repeat (split; [reflexivity|]). right. right.
  apply dict_get_inv in Hecb.
  apply dict_add_inv in Hmv1 as (v1 & Hv1 & ->).
  apply dict_get_inv in Hxcb. rewrite lookup_insert_eq in Hxcb.
  apply dict_add_inv in Hmv2 as (v2 & Hv2 & ->).
  rewrite lookup_insert_eq in Hv2.
  assert (v1 = ecb) by congruence. subst v1.
  injection Hxcb as <-. injection Hv2 as <-.
  constructor; simpl; try reflexivity; try assumption.
  - unfold FRACTIONAL_SHARES in Esmall. simpl in Esmall.
    now apply Qltb_ge.
  - exists ecb. eexists. repeat (split; [eassumption || reflexivity|]).
    reflexivity.
Qed.

Lemma shares_for_trade_cases (e p : Q) :
  ((e <= 0 \/ p <= 0) /\ shares_for_trade e p = Ok 0) \/
  (0 < e /\ 0 < p /\ exists sh, shares_for_trade e p = Ok sh /\ 0 < sh).
Proof.
  unfold shares_for_trade, ALLOC_PCT, FRACTIONAL_SHARES.
  case_Q (Qleb (e * 1) 0); simpl.
  - left. split; [left; lra | reflexivity].
  - case_Q (Qleb p 0); simpl.
    + left. split; [right; lra | reflexivity].
    + right. split; [lra|]. split; [lra|].
      rewrite py_div_ok by lra. simpl. eexists. split; [reflexivity|].
      eapply Qlt_le_trans; [|apply py_max_ge_l].
      apply Qlt_shift_div_l; lra.
Qed.

(** A session of at least one bar never raises: its divisions and
    dictionary reads are all guarded. *)
Lemma run_session_total (stop : Q) (st : State) (day : Z) (g0 : list Bar) :
  g0 <> [] -> exists st', run_session stop st day g0 = Ok st'.
Proof.
  intros Hg. unfold run_session.
  pose proof (sort_values_nonempty date_local g0 Hg) as Hs.
  destruct (sort_values date_local g0) as [|b0 g] eqn:Eg; [congruence|].
  cbn [map iloc0 bind]. clear Hs.
  set (mk := month_key b0).
  destruct (List.filter (fun b => String.eqb (t b) FIRST_BAR_TIME) _)
    as [|fb0 fbs]; [eauto|].
  destruct (List.filter (fun b => String.eqb (t b) ENTRY_TIME) _)
    as [|en0 ens]; [eauto|].
  destruct (List.filter (fun b => String.eqb (t b) EXIT_TIME) _)
    as [|ex0 exs]; [eauto|].
  destruct (isclose _ _); [eauto|].
  destruct (shares_for_trade_cases (equity st) (close en0))
    as [[_ Hsh] | (He & Hp & sh & Hsh & Hpos)]; rewrite Hsh; cbn [bind].
  { eauto. }
  destruct (FRACTIONAL_SHARES && Qltb sh MIN_FRACTIONAL_SHARES); [eauto|].
  destruct (touch_month_lookup (monthly_vol st) mk) as [v Hv].
  unfold dict_add, dict_get. rewrite Hv. cbn [bind].
  destruct (full_side_cost_pro_fixed sh (close en0) v) as [ec Hec].
  rewrite Hec. cbn [bind].
  rewrite (py_div_ok _ (close en0)) by lra. cbn [bind].
  rewrite !lookup_insert_eq. cbn [bind].
  match goal with
  | |- context [full_side_cost sh ?xp PRICING_PLAN ?w] =>
      destruct (full_side_cost_pro_fixed sh xp w) as [xc Hxc]; rewrite Hxc
  end.
  cbn [bind]. unfold ALLOC_PCT.
  case_Q (Qltb 0 (equity st * 1)).
  - rewrite py_div_ok by lra. cbn [bind]. eauto.
  - cbn [bind]. eauto.
Qed.

Lemma traded_signal_not_skip (stop : Q) (st st' : State) (mk : string)
    (g0 : list Bar) (fb0 en0 ex0 : Bar) (r : Row) :
  traded_session stop st st' mk g0 fb0 en0 ex0 r ->
  signal r <> skip /\ 0 < equity st /\ 0 < close en0.
Proof.
  intros T. split.
  - rewrite (tr_signal _ _ _ _ _ _ _ _ _ T).
    destruct (Qltb (open fb0) (close fb0)); discriminate.
  - pose proof (tr_sized _ _ _ _ _ _ _ _ _ T) as Hs.
    pose proof (tr_lot _ _ _ _ _ _ _ _ _ T) as Hl.
    destruct (shares_for_trade_cases (equity st) (close en0))
      as [[_ H0] | (He & Hp & _)]; [|split; assumption].
    rewrite H0 in Hs. injection Hs as Hs. rewrite <- Hs in Hl.
    exfalso. revert Hl. vm_compute. intros Hl. apply Hl. reflexivity.
Qed.

(** The row of a session, seen from the ledger. *)
Lemma run_session_row (stop : Q) (st : State) (day : Z) (g0 : list Bar)
    (st' : State) :
  run_session stop st day g0 = Ok st' ->
  exists r, rows st' = rows st ++ [r] /\ date r = day /\
            start_equity r = equity st /\ end_equity r = equity st' /\
            row_ok r.
Proof.
  intros H. apply run_session_inv in H
    as (mk & r & _ & Hrows & Hdate & _ & Hstart & Hend & Hcase).
  exists r. repeat (split; [assumption|]).
  assert (Hskip : skip_session st st' mk r -> row_ok r).
  { intros S. unfold row_ok.
    rewrite Hend, Hstart, (sk_equity _ _ _ _ S), (sk_net _ _ _ _ S),
      (sk_shares _ _ _ _ S), (sk_signal _ _ _ _ S).
    split; [ring|]. split; auto. }
  destruct Hcase as [(S & _) | (fb0 & fbs & en0 & ens & ex0 & exs & _ & _ & _
                                & _ & _ & [(S & _) | [(S & _) | T]])];
    try (now apply Hskip).
  destruct (traded_signal_not_skip _ _ _ _ _ _ _ _ _ T) as (Hsig & He & _).
  unfold row_ok. rewrite Hend, Hstart, (tr_equity _ _ _ _ _ _ _ _ _ T).
  split; [reflexivity|]. split; [congruence | lra].
Qed.

Lemma last_cons_default {A : Type} (x : A) (l : list A) (d d' : A) :
  List.last (x :: l) d = List.last (x :: l) d'.
Proof.
  revert x. induction l as [|y l IH]; intros x; [reflexivity|].
  change (List.last (y :: l) d = List.last (y :: l) d'). apply IH.
Qed.

(** The loop appends one row per group, each starting from the equity the
    previous one ended with. *)
Lemma run_loop_rows (stop : Q) (groups : list (Z * list Bar)) :
  forall st st', run_loop stop st groups = Ok st' ->
  exists new, rows st' = rows st ++ new /\
              map date new = map fst groups /\
              chained (equity st) new /\
              equity st' = List.last (map end_equity new) (equity st).
Proof.
  induction groups as [|[day g] groups IH]; intros st st' H; simpl in H.
  - injection H as <-. exists []. rewrite app_nil_r. simpl. auto.
  - apply bind_ok in H as (st1 & H1 & H).
    apply run_session_row in H1 as (r & Hrows & Hdate & Hs & He & Hok).
    apply IH in H as (new & Hrows' & Hdates & Hch & Heq).
    exists (r :: new). rewrite Hrows', Hrows, <- app_assoc. simpl.
    split; [reflexivity|]. split; [now rewrite Hdate, Hdates|].
    rewrite He. split; [auto|]. rewrite Heq.
    destruct new as [|r' new']; [reflexivity|].
    change (List.last (map end_equity (r' :: new')) (equity st1)
            = List.last (map end_equity (r' :: new')) (equity st)).
    apply last_cons_default.
Qed.

Lemma run_loop_total (stop : Q) (groups : list (Z * list Bar)) :
  Forall (fun kg => snd kg <> []) groups ->
  forall st, exists st', run_loop stop st groups = Ok st'.
Proof.
  induction 1 as [|[day g] groups Hg _ IH]; intros st; simpl; [eauto|].
  destruct (run_session_total stop st day g Hg) as [st1 H1].
  rewrite H1. cbn [bind]. apply IH.
Qed.

(** ** The whole run *)

Lemma summarize_total (stop : Q) (ledger : list Row) :
  exists s, summarize stop ledger = Ok s.
Proof.
  unfold summarize.
  destruct (List.length (List.filter is_trade ledger)) as [|n] eqn:En;
    cbn [bind].
  - change (Qltb 0 START_EQUITY) with true. cbn iota.
    rewrite py_div_ok by (vm_compute; discriminate). cbn [bind]. eauto.
  - rewrite py_div_ok.
    + cbn [bind]. change (Qltb 0 START_EQUITY) with true. cbn iota.
      rewrite py_div_ok by (vm_compute; discriminate). cbn [bind]. eauto.
    + unfold Qeq, inject_Z. cbn [Qnum Qden]. lia.
Qed.

Lemma summarize_fields (stop : Q) (ledger : list Row) (s : Summary) :
  summarize stop ledger = Ok s ->
  trades s = List.length (List.filter is_trade ledger) /\
  (trades s = O -> win_rate s = NaN) /\
  max_drawdown s =
    x_round (match drawdowns (equity_curve ledger) with
             | [] => NaN
             | _ :: _ => x_scale (series_min (drawdowns (equity_curve ledger))) 100
             end) 4.
Proof.
  unfold summarize. intros H.
  apply bind_ok in H as (wr & Hwr & H).
  apply bind_ok in H as (tr & Htr & H).
  injection H as <-. cbn [trades win_rate max_drawdown].
  split; [reflexivity|]. split; [|reflexivity].
  intros Hn. rewrite Hn in Hwr. injection Hwr as <-. reflexivity.
Qed.

(** What [run] returns: the rows of the loop, already in date order, one
    per day of the input, chained from the starting equity. *)
Lemma run_inv (raw : list Bar) (stop : Q) (ledger : list Row) (s : Summary) :
  run raw stop = Ok (ledger, s) ->
  ledger <> [] /\
  map date ledger = group_keys (map d (load_data raw)) /\
  chained START_EQUITY ledger /\
  summarize stop ledger = Ok s.
Proof.
  unfold run. intros H.
  apply bind_ok in H as (st & Hloop & H).
  apply bind_ok in H as (ledger' & Hmk & H).
  apply bind_ok in H as (s' & Hsum & H).
  injection H as <- <-.
  apply run_loop_rows in Hloop as (new & Hrows & Hdates & Hch & _).
  simpl in Hrows. subst new. rewrite groupby_keys in Hdates.
  assert (Hid : sort_values date (rows st) = rows st).
  { apply sort_values_id, strictly_ascending_map. rewrite Hdates.
    apply group_keys_ascending. }
  unfold make_trades in Hmk.
  destruct (rows st) as [|r rs] eqn:Er; [discriminate|].
  rewrite Hid in Hmk. injection Hmk as <-.
  split; [discriminate|]. split; [exact Hdates|].
  split; [exact Hch | exact Hsum].
Qed.

(** [run] returns a ledger and a summary for every input with at least
    one bar, and raises on the empty input. *)
Lemma run_total (raw : list Bar) (stop : Q) :
  raw <> [] -> exists out, run raw stop = Ok out.
Proof.
  intros Hraw. unfold run.
  assert (Hdf : load_data raw <> []) by now apply sort_values_nonempty.
  destruct (run_loop_total stop (groupby d (load_data raw))
              (groupby_nonempty d (load_data raw)) init_state) as [st Hst].
  rewrite Hst. cbn [bind].
  apply run_loop_rows in Hst as (new & Hrows & Hdates & _).
  simpl in Hrows. subst new. rewrite groupby_keys in Hdates.
  destruct (rows st) as [|r rs] eqn:Er.
  - exfalso. symmetry in Hdates. simpl in Hdates.
    apply (group_keys_nonempty (map d (load_data raw))); [|exact Hdates].
    destruct (load_data raw); [congruence | discriminate].
  - cbn [make_trades bind].
    destruct (summarize_total stop (sort_values date (r :: rs))) as [s Hs].
    rewrite Hs. cbn [bind]. eauto.
Qed.

Lemma run_empty (stop : Q) : run [] stop = Raise (KeyError "date").
Proof. reflexivity. Qed.

(** ** Equity compounding *)

Lemma chained_rows (l : list Row) : forall e, chained e l -> Forall row_ok l.
Proof.
  induction l as [|r l IH]; intros e H; [constructor|].
  destruct H as (_ & Hok & Hch). constructor; [exact Hok | eauto].
Qed.

Lemma chained_head (e : Q) (l : list Row) (r : Row) :
  chained e l -> l !! O = Some r -> start_equity r = e.
Proof.
  destruct l as [|r0 l]; [discriminate|]. intros (Hs & _) [= <-]. exact Hs.
Qed.

Lemma chained_next (l : list Row) :
  forall e i p r, chained e l -> l !! i = Some p -> l !! S i = Some r ->
                  start_equity r = end_equity p.
Proof.
  induction l as [|r0 l IH]; intros e i p r H Hp Hr; [discriminate|].
  destruct H as (_ & _ & Hch). destruct i as [|i]; simpl in *.
  - injection Hp as <-. eapply chained_head; eassumption.
  - eapply IH; eassumption.
Qed.

Lemma chained_replay (l : list Row) :
  forall e e', chained e l -> e' == e ->
  Forall2 Qeq (running_sum e' (map net_pnl l)) (map end_equity l).
Proof.
  induction l as [|r l IH]; intros e e' H He; simpl; [constructor|].
  destruct H as (Hs & (Hend & _) & Hch).
  assert (Hr : e' + net_pnl r == end_equity r).
  { rewrite Hend, Hs, He. reflexivity. }
  constructor; [exact Hr | eapply IH; eassumption].
Qed.

(** From a non-positive balance, every row is a skip that keeps it. *)
Lemma chained_nonpositive (l : list Row) :
  forall e, chained e l -> e <= 0 ->
  Forall (fun r => signal r = skip /\ shares r = 0 /\
                   start_equity r = e /\ end_equity r = e) l.
Proof.
  induction l as [|r l IH]; intros e H He; [constructor|].
  destruct H as (Hs & (_ & Hskip & Hneg) & Hch).
  assert (Hsig : signal r = skip) by (apply Hneg; rewrite Hs; exact He).
  destruct (Hskip Hsig) as (Hend & _ & Hsh).
  assert (Hend' : end_equity r = e) by congruence.
  constructor; [auto|]. rewrite Hend' in Hch. now apply IH.
Qed.

Lemma chained_split (pre : list Row) :
  forall e r post, chained e (pre ++ r :: post) -> chained (end_equity r) post.
Proof.
  induction pre as [|r0 pre IH]; intros e r post H; simpl in H.
  - apply H.
  - destruct H as (_ & _ & H). eapply IH; eassumption.
Qed.

(** C3: for every bar series with at least one bar [run] returns a
    ledger with one row per session, in day order, and replaying the
    ledger's net P&L values as a running sum from the starting equity
    reproduces every recorded ending equity: in every row
    end_equity = start_equity + net_pnl; the first row starts from
    START_EQUITY and every later row from the previous row's ending
    equity; a skip row carries the equity forward unchanged. *)
Theorem C3_ledger_replays_equity (raw : list Bar) (stop : Q) :
  raw <> [] ->
  exists ledger s,
    run raw stop = Ok (ledger, s) /\
    map date ledger = map fst (groupby d (load_data raw)) /\
    Forall (fun r => end_equity r == start_equity r + net_pnl r) ledger /\
    (forall r, ledger !! O = Some r -> start_equity r = START_EQUITY) /\
    (forall i p r, ledger !! i = Some p -> ledger !! S i = Some r ->
                   start_equity r = end_equity p) /\
    Forall (fun r => signal r = skip -> end_equity r = start_equity r)
           ledger /\
    Forall2 Qeq (running_sum START_EQUITY (map net_pnl ledger))
                (map end_equity ledger).
Proof.
  intros Hraw. destruct (run_total raw stop Hraw) as [[ledger s] H].
  exists ledger, s. split; [exact H|].
  apply run_inv in H as (_ & Hdates & Hch & _).
  pose proof (chained_rows _ _ Hch) as Hok.
  split; [|split; [|split; [|split; [|split]]]].
  - rewrite groupby_keys. exact Hdates.
  - eapply List.Forall_impl; [|exact Hok]. intros r Hr. apply Hr.
  - intros r. apply (chained_head _ _ _ Hch).
  - intros i p r. apply (chained_next _ _ _ _ _ Hch).
  - eapply List.Forall_impl; [|exact Hok]. intros r (_ & Hs & _) Hsig.
    now apply Hs.
  - eapply chained_replay; [exact Hch | reflexivity].
Qed.

Lemma C3_ledger_replays_equity_witness :
  exists ledger s,
    run sample_raw STOP_PCT_DEFAULT = Ok (ledger, s) /\
    map date ledger = map fst (groupby d (load_data sample_raw)) /\
    Forall (fun r => end_equity r == start_equity r + net_pnl r) ledger /\
    (forall r, ledger !! O = Some r -> start_equity r = START_EQUITY) /\
    (forall i p r, ledger !! i = Some p -> ledger !! S i = Some r ->
                   start_equity r = end_equity p) /\
    Forall (fun r => signal r = skip -> end_equity r = start_equity r)
           ledger /\
    Forall2 Qeq (running_sum START_EQUITY (map net_pnl ledger))
                (map end_equity ledger).
Proof.
  apply (C3_ledger_replays_equity sample_raw STOP_PCT_DEFAULT).
  discriminate.
Defined.

(** ** No trade from a non-positive balance *)

Lemma shares_for_trade_nonpositive (e price : Q) :
  e <= 0 -> shares_for_trade e price = Ok 0.
Proof.
  intros He.
  destruct (shares_for_trade_cases e price) as [[_ H] | (Hpos & _)];
    [exact H | lra].
Qed.

(** C10: fractional shares are enabled and the minimum lot is positive; so
    from a state whose equity is <= 0 the position is sized to 0 shares
    and, whatever the remaining sessions are, each of them is recorded as
    a skip with 0 shares that starts and ends with that same equity: the
    equity never changes again for the remainder of the run. *)
Theorem C10_no_trade_from_nonpositive_equity (stop : Q) (st : State)
    (groups : list (Z * list Bar)) :
  equity st <= 0 ->
  Forall (fun kg => snd kg <> []) groups ->
  (FRACTIONAL_SHARES = true /\ 0 < MIN_FRACTIONAL_SHARES) /\
  (forall price, shares_for_trade (equity st) price = Ok 0) /\
  exists st' new,
    run_loop stop st groups = Ok st' /\
    rows st' = rows st ++ new /\
    map date new = map fst groups /\
    equity st' = equity st /\
    Forall (fun r => signal r = skip /\ shares r = 0 /\
                     start_equity r = equity st /\
                     end_equity r = equity st) new.
Proof.
  intros He Hg. split; [split; reflexivity|].
  split; [intros price; now apply shares_for_trade_nonpositive|].
  destruct (run_loop_total stop groups Hg st) as [st' Hst].
  exists st'. pose proof Hst as Hloop.
  apply run_loop_rows in Hst as (new & Hrows & Hdates & Hch & Heq).
  exists new. pose proof (chained_nonpositive _ _ Hch He) as Hall.
  repeat (split; [assumption|]). split; [|exact Hall].
  rewrite Heq. clear - Hall.
  induction Hall as [|r l (_ & _ & _ & Hend) _ IH]; [reflexivity|].
  destruct l as [|r' l']; [exact Hend|].
  rewrite <- IH. apply (last_cons_default (end_equity r')).
Qed.

Lemma C10_no_trade_from_nonpositive_equity_witness :
  equity bust_state <= 0 /\
  exists st' new,
    run_loop bust_stop bust_state (skipn 1 (groupby d (load_data bust_raw)))
      = Ok st' /\
    rows st' = rows bust_state ++ new /\
    map date new = [2%Z] /\
    equity st' = equity bust_state /\
    Forall (fun r => signal r = skip /\ shares r = 0 /\
                     start_equity r = equity bust_state /\
                     end_equity r = equity bust_state) new.
Proof.
  assert (He : equity bust_state <= 0) by (vm_compute; discriminate).
  split; [exact He|].
  refine (proj2 (proj2 (C10_no_trade_from_nonpositive_equity bust_stop
            bust_state (skipn 1 (groupby d (load_data bust_raw))) He _))).
  vm_compute. repeat constructor; discriminate.
Defined.

(** The same fact read off the ledger: after a row that ends with an
    equity <= 0, every later row is a skip carrying that equity. *)
Lemma ledger_frozen_after_bust (raw : list Bar) (stop : Q)
    (ledger : list Row) (s : Summary) (pre : list Row) (r : Row)
    (post : list Row) :
  run raw stop = Ok (ledger, s) ->
  ledger = pre ++ r :: post ->
  end_equity r <= 0 ->
  Forall (fun r' => signal r' = skip /\ shares r' = 0 /\
                    start_equity r' = end_equity r /\
                    end_equity r' = end_equity r) post.
Proof.
  intros H -> He. apply run_inv in H as (_ & _ & Hch & _).
  apply chained_split in Hch. now apply chained_nonpositive.
Qed.

(** ** Summary with no trade *)

Lemma cummax_from_repeat (c : Q) (n : nat) :
  cummax_from c (List.repeat c n) = List.repeat c n.
Proof.
  induction n as [|n IH]; simpl; [reflexivity|].
  rewrite py_max_refl, IH. reflexivity.
Qed.

Lemma drawdowns_repeat (c : Q) (n : nat) :
  drawdowns (List.repeat c n) = List.repeat (x_sub (np_div c c) 1) n.
Proof.
  unfold drawdowns.
  assert (Hc : cummax (List.repeat c n) = List.repeat c n).
  { destruct n as [|n]; simpl; [reflexivity|].
    now rewrite cummax_from_repeat. }
  rewrite Hc. clear Hc.
  induction n as [|n IH]; simpl; [reflexivity | now rewrite IH].
Qed.

Lemma series_min_repeat (q : Q) (n : nat) :
  series_min (List.repeat (Fin q) (S n)) = Fin q.
Proof.
  unfold series_min. simpl.
  induction n as [|n IH]; simpl; [reflexivity|].
  unfold Qltb at 1. 
  assert (Hq : Qle_bool q q = true) by (apply Qle_bool_iff; lra).
  rewrite Hq. simpl. exact IH.
Qed.

(** Without a trade the equity never leaves its starting value. *)
Lemma chained_all_skip (l : list Row) :
  forall e, chained e l -> List.filter is_trade l = [] ->
  equity_curve l = List.repeat e (List.length l).
Proof.
  induction l as [|r l IH]; intros e H Hf; [reflexivity|].
  destruct H as (Hs & (_ & Hskip & _) & Hch). simpl in Hf.
  destruct (is_trade r) eqn:Et; [discriminate|].
  assert (Hsig : signal r = skip).
  { unfold is_trade in Et. destruct (signal r); [discriminate.. | reflexivity]. }
  destruct (Hskip Hsig) as (Hend & _).
  assert (Hend' : end_equity r = e) by congruence.
  simpl. rewrite Hend'. f_equal. rewrite Hend' in Hch. now apply IH.
Qed.

(** C9 (as stated, refuted): on a day that cannot be traded the ledger has
    one skip row and no trade; the win rate is undefined (NaN) but the
    maximum drawdown is reported, as 0. *)
Lemma C9_drawdown_defined_without_trades :
  exists ledger s,
    run quiet_raw STOP_PCT_DEFAULT = Ok (ledger, s) /\
    Forall (fun r => signal r = skip) ledger /\
    trades s = O /\
    win_rate s = NaN /\
    max_drawdown s <> NaN /\
    max_drawdown s = Fin 0.0000.
Proof.
  eexists. eexists. split; [vm_compute; reflexivity|].
  split; [repeat constructor|]. split; [reflexivity|].
  split; [reflexivity|]. split; [discriminate | reflexivity].
Qed.

(** C9 (amended): for every bar series with at least one bar [run]
    returns a ledger and a summary; when the ledger holds no long/short
    trade, the win rate is reported as undefined (NaN, no division by the
    zero trade count takes place), while the maximum drawdown is reported
    as 0: its guard is the number of ledger rows, skipped sessions
    included, which is never zero for a completed run. *)
Theorem C9_no_trades_summary (raw : list Bar) (stop : Q) :
  raw <> [] ->
  exists ledger s,
    run raw stop = Ok (ledger, s) /\
    trades s = List.length (List.filter is_trade ledger) /\
    (trades s = O ->
       win_rate s = NaN /\
       exists q, max_drawdown s = Fin q /\ q == 0).
Proof.
  intros Hraw. destruct (run_total raw stop Hraw) as [[ledger s] H].
  exists ledger, s. split; [exact H|].
  apply run_inv in H as (Hne & _ & Hch & Hsum).
  apply summarize_fields in Hsum as (Htr & Hwr & Hdd).
  split; [exact Htr|]. intros Hn.
  split; [now apply Hwr|].
  rewrite Hn in Htr. symmetry in Htr. apply length_zero_iff_nil in Htr.
  rewrite (chained_all_skip _ _ Hch Htr), drawdowns_repeat in Hdd.
  destruct ledger as [|r ledger]; [congruence|].
  cbn [List.length List.repeat] in Hdd.
  change (x_sub (np_div START_EQUITY START_EQUITY) 1 :: ?l)
    with (List.repeat (x_sub (np_div START_EQUITY START_EQUITY) 1)
                      (S (List.length ledger))) in Hdd.
  change (x_sub (np_div START_EQUITY START_EQUITY) 1)
    with (Fin (START_EQUITY / START_EQUITY - 1)) in Hdd.
  rewrite series_min_repeat in Hdd. rewrite Hdd.
  eexists. split; [reflexivity|]. vm_compute. reflexivity.
Qed.

Lemma C9_no_trades_summary_witness :
  exists ledger s,
    run quiet_raw STOP_PCT_DEFAULT = Ok (ledger, s) /\
    trades s = List.length (List.filter is_trade ledger) /\
    (trades s = O ->
       win_rate s = NaN /\
       exists q, max_drawdown s = Fin q /\ q == 0).
Proof.
  apply (C9_no_trades_summary quiet_raw STOP_PCT_DEFAULT).
  discriminate.
Defined.

(** ** Skipped sessions *)

Lemma touch_month_read (m : gmap string Q) (mk k : string) :
  default 0 (touch_month m mk !! k) = default 0 (m !! k).
Proof.
  unfold touch_month. destruct (m !! mk) as [v|] eqn:E; [reflexivity|].
  destruct (decide (mk = k)) as [->|Hne].
  - rewrite lookup_insert_eq, E. reflexivity.
  - rewrite lookup_insert_ne by exact Hne. reflexivity.
Qed.

(** C5 (as stated, refuted): the first session of a month, when skipped,
    still creates the month's volume counter: the monthly-volume map of
    the run is not the one the session started with. *)
Lemma C5_skip_creates_month_counter :
  exists st' r,
    run_session STOP_PCT_DEFAULT init_state 1 quiet_raw = Ok st' /\
    rows st' = rows init_state ++ [r] /\ signal r = skip /\
    monthly_vol init_state !! "2024-01" = None /\
    monthly_vol st' !! "2024-01" = Some 0 /\
    monthly_vol st' <> monthly_vol init_state.
Proof.
  eexists. eexists. split; [vm_compute; reflexivity|].
  split; [reflexivity|]. split; [reflexivity|]. split; [reflexivity|].
  split; [reflexivity|]. cbn [monthly_vol init_state]. intros H.
  apply (f_equal (fun m : gmap string Q => m !! "2024-01")) in H.
  vm_compute in H. discriminate H.
Qed.

(** C5 (amended): a session recorded with signal = skip appends exactly
    one ledger row, whose net P&L is 0 and whose ending equity equals its
    starting equity, and leaves the equity of the run unchanged; the
    monthly-volume map is unchanged except that the session's month gains
    a counter of 0 when it had none, so the cumulative volume of every
    month (an absent month reading as 0) is unchanged. *)
Theorem C5_skip_session_frame (stop : Q) (st : State) (day : Z)
    (g0 : list Bar) (st' : State) (r : Row) :
  run_session stop st day g0 = Ok st' ->
  rows st' = rows st ++ [r] ->
  signal r = skip ->
  net_pnl r = 0 /\
  start_equity r = equity st /\ end_equity r = start_equity r /\
  equity st' = equity st /\
  monthly_vol st' = touch_month (monthly_vol st) (row_month_key r) /\
  forall k, default 0 (monthly_vol st' !! k) = default 0 (monthly_vol st !! k).
Proof.
  intros H Hrows Hsig.
  apply run_session_inv in H
    as (mk & r' & _ & Hrows' & _ & Hmk & Hstart & Hend & Hcase).
  rewrite Hrows' in Hrows. apply app_inv_head in Hrows.
  injection Hrows as ->.
  assert (S : skip_session st st' mk r).
  { destruct Hcase as [(S & _) | (fb0 & fbs & en0 & ens & ex0 & exs & _ & _ & _
                                  & _ & _ & [(S & _) | [(S & _) | T]])];
      try exact S.
    destruct (traded_signal_not_skip _ _ _ _ _ _ _ _ _ T) as (Hne & _).
    contradiction. }
  rewrite Hmk, Hend, Hstart, (sk_equity _ _ _ _ S), (sk_net _ _ _ _ S),
    (sk_vol _ _ _ _ S).
  repeat (split; [reflexivity|]). intros k. apply touch_month_read.
Qed.

Lemma C5_skip_session_frame_witness :
  exists st' r,
    run_session STOP_PCT_DEFAULT init_state 1 quiet_raw = Ok st' /\
    rows st' = rows init_state ++ [r] /\
    net_pnl r = 0 /\
    start_equity r = equity init_state /\ end_equity r = start_equity r /\
    equity st' = equity init_state /\
    monthly_vol st'
      = touch_month (monthly_vol init_state) (row_month_key r) /\
    forall k, default 0 (monthly_vol st' !! k)
              = default 0 (monthly_vol init_state !! k).
Proof.
  eexists. eexists. split; [vm_compute; reflexivity|].
  split; [reflexivity|].
  eapply (C5_skip_session_frame STOP_PCT_DEFAULT init_state 1 quiet_raw);
    [vm_compute; reflexivity | reflexivity | reflexivity].
Defined.

(** ** Signal from the reference bar *)

Lemma isclose_spec (a b : Q) :
  isclose a b = true <->
  Qabs (b - a) <= Qabs (rel_tol * b) \/ Qabs (b - a) <= Qabs (rel_tol * a).
Proof.
  unfold isclose, abs_tol. case_Q (Qeqb a b).
  - split; [intros _|reflexivity]. left.
    assert (H0 : b - a == 0) by lra. rewrite H0. apply Qabs_nonneg.
  - rewrite !orb_true_iff, !Qleb_le. split.
    + intros [[H|H]|H]; [now left | now right |].
      left. eapply Qle_trans; [exact H | apply Qabs_nonneg].
    + intros [H|H]; [left; now left | left; now right].
Qed.

Lemma isclose_eq (a b : Q) : a == b -> isclose a b = true.
Proof. intros H. unfold isclose. apply Qeqb_eq in H. now rewrite H. Qed.

(** C1 (as stated, refuted): in backtest.py a first bar that closes above
    its open by less than the relative tolerance of [math.isclose] is a
    doji skip, not a long; in range_breakout.py a first candle with
    close == open is traded SHORT, not skipped. *)
Lemma C1_signal_rule_differs_by_variant :
  (exists st' r,
     run_session STOP_PCT_DEFAULT init_state 1 near_doji_day = Ok st' /\
     rows st' = [r] /\
     first_bar_open r = Some 400 /\
     first_bar_close r = Some 400.0000001 /\
     400 < 400.0000001 /\
     signal r = skip /\ exit_reason r = doji_skip) /\
  (exists r,
     RangeBreakout.day_result 1 rb_flat_day = Some r /\
     RangeBreakout.row_Open r == RangeBreakout.row_Close r /\
     RangeBreakout.row_Direction r = RangeBreakout.SHORT).
Proof.
  split.
  - eexists. eexists. split; [vm_compute; reflexivity|].
    repeat (split; [reflexivity|]). reflexivity.
  - eexists. split; [vm_compute; reflexivity|]. split; reflexivity.
Qed.

(** C1 (amended): for a reference bar with open o and close c,
    - research_algo.py: c > o gives sign 1 (green), c < o gives sign -1
      (red), and exact equality gives sign 0 (doji);
    - range_breakout.py: c > o gives LONG and every other bar, c == o
      included, gives SHORT; there is no skip;
    - backtest.py: the session is a skip whenever [math.isclose(c, o)]
      holds (|c - o| within 1e-9 of the larger magnitude, exact equality
      included); a long is recorded only when c > o and a short only when
      c < o, both outside that tolerance; outside the tolerance the only
      skips are those for missing bars or an undersized position. *)
Theorem C1_signal_from_reference_bar (o c : Q) :
  ((o < c -> ResearchAlgo.first_bar_direction o c = (1%Z, ResearchAlgo.GREEN)) /\
   (c < o -> ResearchAlgo.first_bar_direction o c = ((-1)%Z, ResearchAlgo.RED)) /\
   (c == o -> ResearchAlgo.first_bar_direction o c = (0%Z, ResearchAlgo.DOJI))) /\
  ((o < c -> RangeBreakout.direction o c = RangeBreakout.LONG) /\
   (c <= o -> RangeBreakout.direction o c = RangeBreakout.SHORT)) /\
  ((c == o -> isclose c o = true) /\
   (isclose c o = true <->
      Qabs (o - c) <= Qabs (rel_tol * o) \/
      Qabs (o - c) <= Qabs (rel_tol * c)) /\
   forall stop st day g0 st' fb0 fbs r,
     run_session stop st day g0 = Ok st' ->
     bars_at FIRST_BAR_TIME g0 = fb0 :: fbs ->
     open fb0 = o -> close fb0 = c ->
     rows st' = rows st ++ [r] ->
     (isclose c o = true -> signal r = skip) /\
     (signal r = long -> o < c /\ isclose c o = false) /\
     (signal r = short -> c < o /\ isclose c o = false) /\
     (isclose c o = false -> signal r = skip ->
        exit_reason r = missing \/ exit_reason r = too_small)).
Proof.
  split; [|split].
  - unfold ResearchAlgo.first_bar_direction. repeat split; intros H.
    + apply Qltb_lt in H. now rewrite H.
    + case_Q (Qltb o c); [lra|]. apply Qltb_lt in H. now rewrite H.
    + case_Q (Qltb o c); [lra|]. case_Q (Qltb c o); [lra | reflexivity].
  - unfold RangeBreakout.direction. split; intros H.
    + apply Qltb_lt in H. now rewrite H.
    + apply Qltb_ge in H. now rewrite H.
  - split; [apply isclose_eq|]. split; [apply isclose_spec|].
    intros stop st day g0 st' fb0 fbs r H Hfb Ho Hc Hrows.
    apply run_session_inv in H
      as (mk & r' & _ & Hrows' & _ & _ & _ & _ & Hcase).
    rewrite Hrows' in Hrows. apply app_inv_head in Hrows.
    injection Hrows as ->.
    destruct Hcase as [(S & Hr & _) | (fb1 & fbs1 & en0 & ens & ex0 & exs & Hfb'
                                       & _ & _ & _ & _ & Hcase)].
    { pose proof (sk_signal _ _ _ _ S) as Hs. rewrite Hs.
      repeat split; try discriminate; auto. }
    rewrite Hfb in Hfb'. injection Hfb' as <- <-. rewrite Ho, Hc in Hcase.
    destruct Hcase as [(S & Hr & Hcl) | [(S & Hr & Hcl & _) | T]].
    + pose proof (sk_signal _ _ _ _ S) as Hs. rewrite Hs, Hcl.
      repeat split; try discriminate; auto.
    + pose proof (sk_signal _ _ _ _ S) as Hs. rewrite Hs, Hcl.
      repeat split; try discriminate; auto.
    + pose proof (tr_signal _ _ _ _ _ _ _ _ _ T) as Hs.
      pose proof (tr_not_doji _ _ _ _ _ _ _ _ _ T) as Hcl.
      rewrite Ho, Hc in Hs, Hcl. rewrite Hs, Hcl.
      case_Q (Qltb o c); repeat split; try discriminate; auto.
      assert (Hne : ~ c == o).
      { intros Heq. apply isclose_eq in Heq. congruence. }
      lra.
Qed.

(** ** Exit scan *)

(** The scan stops at the first breaching bar and fills at the level;
    without one it keeps the values set before the loop. *)
Lemma scan_stop_spec (sig : Signal) (lvl : Q) (bars : list Bar)
    (px0 : Q) (reason0 : ExitReason) :
  sig <> skip ->
  (exists pre b post,
     bars = pre ++ b :: post /\
     Forall (fun b' => ~ breaches sig lvl b') pre /\
     breaches sig lvl b /\
     scan_stop sig lvl bars px0 reason0 = (lvl, stop_hit))
  \/
  (Forall (fun b' => ~ breaches sig lvl b') bars /\
   scan_stop sig lvl bars px0 reason0 = (px0, reason0)).
Proof.
  intros Hsig. induction bars as [|b bars IH].
  - right. split; [constructor | reflexivity].
  - assert (Hstep :
      (breaches sig lvl b /\
       scan_stop sig lvl (b :: bars) px0 reason0 = (lvl, stop_hit)) \/
      (~ breaches sig lvl b /\
       scan_stop sig lvl (b :: bars) px0 reason0
         = scan_stop sig lvl bars px0 reason0)).
    { destruct sig; [| |congruence]; simpl.
      - case_Q (Qleb (low b) lvl); [left | right]; split;
          [assumption | reflexivity | lra | reflexivity].
      - case_Q (Qleb lvl (high b)); [left | right]; split;
          [assumption | reflexivity | lra | reflexivity]. }
    destruct Hstep as [(Hb & Hs) | (Hb & Hs)].
    + left. exists [], b, bars. repeat split; [constructor | assumption..].
    + rewrite Hs.
      destruct IH as [(pre & b1 & post & -> & Hpre & Hb1 & Hscan) | (Hall & Hscan)].
      * left. exists (b :: pre), b1, post.
        repeat split; [constructor; assumption | assumption..].
      * right. split; [constructor; assumption | assumption].
Qed.

Lemma subsequent_bars_spec (g0 : list Bar) (en ex : Bar) :
  ascending date_local (subsequent_bars (sort_values date_local g0) en ex) /\
  forall b, In b (subsequent_bars (sort_values date_local g0) en ex) <->
            In b g0 /\
            (date_local en < date_local b <= date_local ex)%Z.
Proof.
  unfold subsequent_bars. split.
  - apply filter_ascending, sort_values_ascending.
  - intros b. rewrite filter_In, sort_values_In, andb_true_iff,
      Z.ltb_lt, Z.leb_le. tauto.
Qed.

Lemma rb_scan_spec (dir : RangeBreakout.Direction) (tp sl x : Q)
    (session : list RangeBreakout.Bar) :
  (exists pre b post,
     session = pre ++ b :: post /\
     Forall (fun b' => ~ rb_hits_tp dir tp b' /\ ~ rb_hits_sl dir sl b') pre /\
     ((rb_hits_tp dir tp b /\
       RangeBreakout.scan dir tp sl x session = (RangeBreakout.HIT_TP, x)) \/
      (~ rb_hits_tp dir tp b /\ rb_hits_sl dir sl b /\
       RangeBreakout.scan dir tp sl x session = (RangeBreakout.HIT_SL, - x))))
  \/
  (Forall (fun b' => ~ rb_hits_tp dir tp b' /\ ~ rb_hits_sl dir sl b') session /\
   RangeBreakout.scan dir tp sl x session = (RangeBreakout.NO_HIT, 0)).
Proof.
  induction session as [|b session IH].
  - right. split; [constructor | reflexivity].
  - assert (Hstep :
      (rb_hits_tp dir tp b /\
       RangeBreakout.scan dir tp sl x (b :: session) = (RangeBreakout.HIT_TP, x)) \/
      (~ rb_hits_tp dir tp b /\ rb_hits_sl dir sl b /\
       RangeBreakout.scan dir tp sl x (b :: session)
         = (RangeBreakout.HIT_SL, - x)) \/
      (~ rb_hits_tp dir tp b /\ ~ rb_hits_sl dir sl b /\
       RangeBreakout.scan dir tp sl x (b :: session)
         = RangeBreakout.scan dir tp sl x session)).
    { destruct dir; simpl.
      - case_Q (Qleb tp (RangeBreakout.high b)); [left; now split|].
        right. case_Q (Qleb (RangeBreakout.low b) sl); [left | right];
          repeat split; try assumption; lra.
      - case_Q (Qleb (RangeBreakout.low b) tp); [left; now split|].
        right. case_Q (Qleb sl (RangeBreakout.high b)); [left | right];
          repeat split; try assumption; lra. }
    destruct Hstep as [(Htp & Hs) | [(Htp & Hsl & Hs) | (Htp & Hsl & Hs)]].
    + left. exists [], b, session. split; [reflexivity|].
      split; [constructor|]. left. now split.
    + left. exists [], b, session. split; [reflexivity|].
      split; [constructor|]. right. now repeat split.
    + rewrite Hs.
      destruct IH as [(pre & b1 & post & -> & Hpre & Hhit) | (Hall & Hscan)].
      * left. exists (b :: pre), b1, post. split; [reflexivity|].
        split; [constructor; [split|]; assumption | exact Hhit].
      * right. split; [constructor; [split|]; assumption | exact Hscan].
Qed.

(** C2 (as stated, refuted): in range_breakout.py a session in which no
    bar reaches the target or the stop is recorded as NO HIT with a gain
    of 0; the position is not closed at the 11:30 bar's close (101, half a
    point above the entry at 100.5). *)
Lemma C2_range_breakout_has_no_time_exit :
  exists r,
    RangeBreakout.day_result 1 rb_quiet_day = Some r /\
    RangeBreakout.row_Direction r = RangeBreakout.LONG /\
    RangeBreakout.row_Close r = 100.5 /\
    map RangeBreakout.close (RangeBreakout.session_bars rb_quiet_day)
      = [101.2; 101] /\
    RangeBreakout.row_Result r = RangeBreakout.NO_HIT /\
    RangeBreakout.row_Gain_Points r == 0 /\
    ~ RangeBreakout.row_Gain_Points r == 101 - RangeBreakout.row_Close r.
Proof.
  eexists. split; [vm_compute; reflexivity|].
  repeat (split; [reflexivity|]). vm_compute. discriminate.
Qed.

(** C2 (amended).  backtest.py: for every non-skipped session, the bars
    strictly after the entry bar and up to and including the exit-deadline
    bar are scanned in timestamp order; the trade exits at the first bar
    that breaches (long: low <= stop level, short: high >= stop level),
    filled exactly at the stop level with reason stop_hit; if no bar
    breaches it exits at the exit-deadline bar's close with reason
    time_exit.  range_breakout.py: the scan ends at the first bar that
    reaches the target or the stop, the target being checked first on the
    same bar, and records a gain of +x (target) or -x (stop), x being the
    first candle's range; if no bar does, it records NO HIT with gain 0
    (no exit at the deadline bar's close). *)
Theorem C2_exit_at_first_breach_else_deadline :
  (forall stop st day g0 st' r,
     run_session stop st day g0 = Ok st' ->
     rows st' = rows st ++ [r] ->
     signal r <> skip ->
     exists en0 ens ex0 exs lvl,
       bars_at ENTRY_TIME g0 = en0 :: ens /\
       bars_at EXIT_TIME g0 = ex0 :: exs /\
       entry_price r = Some (close en0) /\
       stop_level r = Some lvl /\
       lvl = stop_level_for (signal r) (close en0) stop /\
       ascending date_local
         (subsequent_bars (sort_values date_local g0) en0 ex0) /\
       (forall b,
          In b (subsequent_bars (sort_values date_local g0) en0 ex0) <->
          In b g0 /\ (date_local en0 < date_local b <= date_local ex0)%Z) /\
       ((exists pre b post,
           subsequent_bars (sort_values date_local g0) en0 ex0
             = pre ++ b :: post /\
           Forall (fun b' => ~ breaches (signal r) lvl b') pre /\
           breaches (signal r) lvl b /\
           exit_price r = Some lvl /\ exit_reason r = stop_hit)
        \/
        (Forall (fun b' => ~ breaches (signal r) lvl b')
                (subsequent_bars (sort_values date_local g0) en0 ex0) /\
         exit_price r = Some (close ex0) /\ exit_reason r = time_exit)))
  /\
  (forall date group r,
     RangeBreakout.day_result date group = Some r ->
     exists first rest tp sl,
       List.filter
         (fun b => String.eqb (RangeBreakout.Time b) RangeBreakout.ENTRY_TIME)
         (sort_values RangeBreakout.Datetime group) = first :: rest /\
       let x := RangeBreakout.high first - RangeBreakout.low first in
       let dir := RangeBreakout.row_Direction r in
       let session :=
         RangeBreakout.session_bars (sort_values RangeBreakout.Datetime group) in
       tp = match dir with
            | RangeBreakout.LONG => RangeBreakout.close first + x
            | RangeBreakout.SHORT => RangeBreakout.close first - x
            end /\
       sl = match dir with
            | RangeBreakout.LONG => RangeBreakout.close first - x
            | RangeBreakout.SHORT => RangeBreakout.close first + x
            end /\
       ((exists pre b post,
           session = pre ++ b :: post /\
           Forall (fun b' => ~ rb_hits_tp dir tp b' /\ ~ rb_hits_sl dir sl b')
                  pre /\
           ((rb_hits_tp dir tp b /\
             RangeBreakout.row_Result r = RangeBreakout.HIT_TP /\
             RangeBreakout.row_Gain_Points r = py_round x 2) \/
            (~ rb_hits_tp dir tp b /\ rb_hits_sl dir sl b /\
             RangeBreakout.row_Result r = RangeBreakout.HIT_SL /\
             RangeBreakout.row_Gain_Points r = py_round (- x) 2)))
        \/
        (Forall (fun b' => ~ rb_hits_tp dir tp b' /\ ~ rb_hits_sl dir sl b')
                session /\
         RangeBreakout.row_Result r = RangeBreakout.NO_HIT /\
         RangeBreakout.row_Gain_Points r = py_round 0 2))).
Proof.
  split.
  - intros stop st day g0 st' r H Hrows Hsig.
    apply run_session_inv in H
      as (mk & r' & _ & Hrows' & _ & _ & _ & _ & Hcase).
    rewrite Hrows' in Hrows. apply app_inv_head in Hrows.
    injection Hrows as ->.
    destruct Hcase as [(S & _) | (fb0 & fbs & en0 & ens & ex0 & exs & _ & Hen
                                  & Hex & _ & _ & [(S & _) | [(S & _) | T]])];
      try (exfalso; apply Hsig; exact (sk_signal _ _ _ _ S)).
    exists en0, ens, ex0, exs, (stop_level_for (signal r) (close en0) stop).
    destruct (subsequent_bars_spec g0 en0 ex0) as [Hasc Hin].
    split; [exact Hen|]. split; [exact Hex|].
    split; [exact (tr_entry _ _ _ _ _ _ _ _ _ T)|].
    split; [exact (tr_stop_level _ _ _ _ _ _ _ _ _ T)|].
    split; [reflexivity|]. split; [exact Hasc|]. split; [exact Hin|].
    rewrite (tr_exit_price _ _ _ _ _ _ _ _ _ T),
      (tr_exit_reason _ _ _ _ _ _ _ _ _ T).
    destruct (scan_stop_spec (signal r)
                (stop_level_for (signal r) (close en0) stop)
                (subsequent_bars (sort_values date_local g0) en0 ex0)
                (close ex0) time_exit Hsig)
      as [(pre & b & post & Hsplit & Hpre & Hb & Hscan) | (Hall & Hscan)];
      rewrite Hscan; [left | right].
    + exists pre, b, post. now repeat split.
    + now repeat split.
  - intros date group r H. unfold RangeBreakout.day_result in H.
    destruct (List.filter _ (sort_values RangeBreakout.Datetime group))
      as [|first rest] eqn:Ef; [discriminate|].
    injection H as <-. cbn [RangeBreakout.row_Direction
      RangeBreakout.row_Result RangeBreakout.row_Gain_Points].
    eexists first, rest, _, _. split; [reflexivity|]. cbv zeta.
    split; [reflexivity|]. split; [reflexivity|].
    match goal with
    | |- context [RangeBreakout.scan ?dir ?tp ?sl ?x ?session] =>
        destruct (rb_scan_spec dir tp sl x session)
          as [(pre & b & post & Hsplit & Hpre & Hhit) | (Hall & Hscan)]
    end.
    + left. exists pre, b, post. split; [exact Hsplit|].
      split; [exact Hpre|].
      destruct Hhit as [(Htp & Hscan) | (Htp & Hsl & Hscan)]; rewrite Hscan;
        [left | right]; now repeat split.
    + right. rewrite Hscan. now repeat split.
Qed.

Lemma C2_exit_at_first_breach_else_deadline_witness :
  exists r en0 ens ex0 exs lvl,
    run_session STOP_PCT_DEFAULT init_state 1 sample_day1 = Ok after_day1 /\
    rows after_day1 = [r] /\ signal r = long /\
    bars_at ENTRY_TIME sample_day1 = en0 :: ens /\
    bars_at EXIT_TIME sample_day1 = ex0 :: exs /\
    entry_price r = Some (close en0) /\
    stop_level r = Some lvl /\
    exit_price r = Some 398.4975 /\ exit_reason r = stop_hit.
Proof.
  assert (Hrun : run_session STOP_PCT_DEFAULT init_state 1 sample_day1
                 = Ok after_day1) by (vm_compute; reflexivity).
  evar (r : Row). exists r.
  destruct (proj1 C2_exit_at_first_breach_else_deadline STOP_PCT_DEFAULT
              init_state 1%Z sample_day1 after_day1 r Hrun)
    as (en0 & ens & ex0 & exs & lvl & Hen & Hex & Hentry & Hlvl & _).
  - unfold r. vm_compute. reflexivity.
  - discriminate.
  - exists en0, ens, ex0, exs, lvl. split; [exact Hrun|].
    split; [vm_compute; reflexivity|]. split; [reflexivity|].
    split; [exact Hen|]. split; [exact Hex|]. split; [exact Hentry|].
    split; [exact Hlvl|]. split; reflexivity.
Defined.

(* ===================================================================== *)
(** * Further properties of the scripts                                   *)
(* ===================================================================== *)

(** ** Cost model and sizing *)

Lemma py_max_mono (a b a' b' : Q) :
  a <= a' -> b <= b' -> py_max a b <= py_max a' b'.
Proof.
  intros Ha Hb. unfold py_max.
  case_Q (Qltb a b); case_Q (Qltb a' b'); lra.
Qed.

Lemma py_min_mono (a b a' b' : Q) :
  a <= a' -> b <= b' -> py_min a b <= py_min a' b'.
Proof.
  intros Ha Hb. unfold py_min.
  case_Q (Qltb b a); case_Q (Qltb b' a'); lra.
Qed.

Lemma py_min_pos (a b : Q) : 0 < a -> 0 < b -> 0 < py_min a b.
Proof. intros Ha Hb. unfold py_min. destruct (Qltb b a); assumption. Qed.

Lemma rate_for_tiered_bounds (v : Q) :
  0.0005 <= rate_for_tiered v <= 0.0035.
Proof.
  unfold rate_for_tiered, PT_TIERS. simpl.
  repeat match goal with
         | |- context [Qleb ?a ?b] => destruct (Qleb a b)
         end; split; lra.
Qed.

(** X1: for a recognised plan the commission is never negative, whatever
    the order, and it is strictly positive for every order of a positive
    share quantity at a positive price. *)
Theorem commission_sign (shares price : Q) (plan : string) (vol : Q) :
  recognized plan ->
  exists c, commission_one_side shares price plan vol = Ok c /\
            0 <= c /\ (0 < shares -> 0 < price -> 0 < c).
Proof.
  intros Hplan. unfold commission_one_side.
  case_Q (Qleb shares 0); simpl.
  { exists 0. split; [reflexivity|]. split; [lra|]. intros; lra. }
  case_Q (Qleb price 0); simpl.
  { exists 0. split; [reflexivity|]. split; [lra|]. intros; lra. }
  assert (Htv : 0 < price * shares) by (apply Qmult_lt_0_compat; assumption).
  pose proof (rate_for_tiered_bounds vol) as [Hr _].
  assert (Hrs : 0 < rate_for_tiered vol * shares)
    by (apply Qmult_lt_0_compat; lra).
  destruct Hplan as [-> | [-> | ->]]; simpl; eexists; (split; [reflexivity|]).
  - assert (0 < py_min (py_max (PF_RATE_PER_SHARE * shares) PF_MIN_PER_ORDER)
                       (PF_MAX_RATE_OF_TRADE * (price * shares))).
    { apply py_min_pos.
      - eapply Qlt_le_trans; [|apply py_max_ge_r]. reflexivity.
      - unfold PF_MAX_RATE_OF_TRADE. lra. }
    split; [lra | auto].
  - assert (0 < py_min (py_max (rate_for_tiered vol * shares) PT_MIN_PER_ORDER)
                       (PT_MAX_RATE_OF_TRADE * (price * shares))).
    { apply py_min_pos.
      - eapply Qlt_le_trans; [|apply py_max_ge_r]. reflexivity.
      - unfold PT_MAX_RATE_OF_TRADE. lra. }
    split; [lra | auto].
  - assert (0 < py_max (LITE_RATE_PER_SHARE * shares) LITE_MIN_PER_ORDER).
    { eapply Qlt_le_trans; [|apply py_max_ge_r]. reflexivity. }
    split; [lra | auto].
Qed.

Lemma commission_sign_witness :
  exists c, commission_one_side 0.25 400 "lite" 0 = Ok c /\
            0 <= c /\ (0 < 0.25 -> 0 < 400 -> 0 < c).
Proof.
  apply (commission_sign 0.25 400 "lite" 0). right. right. reflexivity.
Defined.

Lemma commission_returns_nonneg (shares price : Q) (plan : string) (vol : Q) :
  recognized plan ->
  exists c, commission_one_side shares price plan vol = Ok c /\ 0 <= c.
Proof.
  intros Hplan. unfold commission_one_side.
  destruct (Qleb shares 0 || Qleb price 0) eqn:Eg.
  { exists 0. split; [reflexivity | lra]. }
  apply orb_false_iff in Eg as [Es Ep].
  apply Qleb_gt in Es, Ep.
  assert (Htv : 0 < price * shares) by (apply Qmult_lt_0_compat; assumption).
  destruct Hplan as [-> | [-> | ->]]; simpl; eexists; (split; [reflexivity|]).
  - apply Qlt_le_weak, py_min_pos.
    + eapply Qlt_le_trans; [|apply py_max_ge_r]. reflexivity.
    + unfold PF_MAX_RATE_OF_TRADE. lra.
  - apply Qlt_le_weak, py_min_pos.
    + eapply Qlt_le_trans; [|apply py_max_ge_r]. reflexivity.
    + unfold PT_MAX_RATE_OF_TRADE. lra.
  - apply Qlt_le_weak. eapply Qlt_le_trans; [|apply py_max_ge_r]. reflexivity.
Qed.

(** X2: at a given price, plan and monthly volume, a larger share quantity
    never pays a smaller commission. *)
Theorem commission_monotone_in_shares
    (sh1 sh2 price : Q) (plan : string) (vol : Q) :
  recognized plan -> sh1 <= sh2 ->
  exists c1 c2,
    commission_one_side sh1 price plan vol = Ok c1 /\
    commission_one_side sh2 price plan vol = Ok c2 /\
    c1 <= c2.
Proof.
  intros Hplan Hle.
  destruct (commission_returns_nonneg sh2 price plan vol Hplan)
    as (c2 & H2 & Hc2).
  case_Q (Qleb sh1 0).
  { exists 0, c2. split; [|split; [exact H2 | exact Hc2]].
    apply commission_guarded. now left. }
  case_Q (Qleb price 0).
  { exists 0, c2. split; [|split; [exact H2 | exact Hc2]].
    apply commission_guarded. now right. }
  clear c2 H2 Hc2. unfold commission_one_side.
  rewrite (guard_false sh1 price) by assumption.
  rewrite (guard_false sh2 price) by lra.
  pose proof (rate_for_tiered_bounds vol) as [Hr _].
  assert (Hcap : price * sh1 <= price * sh2)
    by (apply Qmult_le_l; assumption).
  assert (Hrate : rate_for_tiered vol * sh1 <= rate_for_tiered vol * sh2)
    by (apply Qmult_le_l; [lra | assumption]).
  destruct Hplan as [-> | [-> | ->]]; simpl; eexists; eexists;
    (split; [reflexivity|]); (split; [reflexivity|]).
  - apply py_min_mono; [apply py_max_mono|]; unfold PF_RATE_PER_SHARE,
      PF_MAX_RATE_OF_TRADE; lra.
  - apply py_min_mono; [apply py_max_mono|]; unfold PT_MAX_RATE_OF_TRADE; lra.
  - apply py_max_mono; unfold LITE_RATE_PER_SHARE; lra.
Qed.

Lemma commission_monotone_in_shares_witness :
  exists c1 c2,
    commission_one_side 100 50 "pro_tiered" 250000 = Ok c1 /\
    commission_one_side 5000 50 "pro_tiered" 250000 = Ok c2 /\
    c1 <= c2.
Proof.
  apply (commission_monotone_in_shares 100 5000 50 "pro_tiered" 250000).
  - right. left. reflexivity.
  - vm_compute. discriminate.
Defined.




(** ** Traded sessions *)














(** ** Invariants of the loop *)

(** A property of the state that every session keeps, and a property of
    the rows that every session establishes, hold along the whole loop. *)
Lemma run_loop_invariant (stop : Q) (I : State -> Prop)
    (G : list Bar -> Prop) (P : Row -> Prop) :
  (forall st day g st' r,
     I st -> G g -> run_session stop st day g = Ok st' ->
     rows st' = rows st ++ [r] -> P r /\ I st') ->
  forall groups st st',
    Forall (fun kg => G (snd kg)) groups -> I st ->
    run_loop stop st groups = Ok st' ->
    exists new, rows st' = rows st ++ new /\ Forall P new /\ I st'.
Proof.
  intros Hstep. induction groups as [|[day g] groups IH];
    intros st st' HG HI H; simpl in H.
  - injection H as <-. exists []. rewrite app_nil_r. auto.
  - apply bind_ok in H as (st1 & H1 & H).
    inversion HG as [|? ? Hg HG']; subst. simpl in Hg.
    pose proof H1 as Hrow.
    apply run_session_row in Hrow as (r & Hrows & _).
    destruct (Hstep _ _ _ _ _ HI Hg H1 Hrows) as [HP HI1].
    destruct (IH _ _ HG' HI1 H) as (new & Hrows' & Hnew & HI').
    exists (r :: new). rewrite Hrows', Hrows, <- app_assoc.
    split; [reflexivity|]. split; [now constructor | exact HI'].
Qed.

Lemma groupby_In {A : Type} (key : A -> Z) (df : list A) (k : Z) (g : list A) :
  In (k, g) (groupby key df) ->
  g = List.filter (fun b => (key b =? k)%Z) df /\ In k (map key df).
Proof.
  unfold groupby. rewrite in_map_iff. intros (k' & [= -> <-] & Hk).
  split; [reflexivity|]. now apply group_keys_In.
Qed.

(** The ledger [run] returns is the list of rows its loop has built. *)
Lemma run_ledger (raw : list Bar) (stop : Q) (ledger : list Row) (s : Summary) :
  run raw stop = Ok (ledger, s) ->
  exists st, run_loop stop init_state (groupby d (load_data raw)) = Ok st /\
             ledger = rows st /\ summarize stop ledger = Ok s.
Proof.
  unfold run. intros H.
  apply bind_ok in H as (st & Hloop & H).
  apply bind_ok in H as (ledger' & Hmk & H).
  apply bind_ok in H as (s' & Hsum & H). injection H as <- <-.
  exists st. split; [exact Hloop|].
  apply run_loop_rows in Hloop as (new & Hrows & Hd & _).
  simpl in Hrows. subst new. rewrite groupby_keys in Hd.
  assert (Hid : sort_values date (rows st) = rows st).
  { apply sort_values_id, strictly_ascending_map. rewrite Hd.
    apply group_keys_ascending. }
  unfold make_trades in Hmk.
  destruct (rows st) as [|r rs] eqn:Er; [discriminate|].
  rewrite Hid in Hmk. injection Hmk as <-. split; [reflexivity | exact Hsum].
Qed.








(** ** Rounding *)

Lemma pow10_pos (n : nat) : 0 < inject_Z (10 ^ Z.of_nat n).
Proof.
  change 0 with (inject_Z 0). rewrite <- Zlt_Qlt.
  apply Z.pow_pos_nonneg; lia.
Qed.

Lemma round_half_even_ge (y : Q) (k : Z) :
  inject_Z k <= y -> (k <= round_half_even y)%Z.
Proof.
  intros H. unfold round_half_even.
  assert (Hf : (k <= Qfloor y)%Z).
  { rewrite <- (Qfloor_Z k). now apply Qfloor_resp_le. }
  destruct (Qltb _ _); [exact Hf|].
  destruct (Qltb _ _); [lia|]. destruct (Z.even _); lia.
Qed.

Lemma round_half_even_le (y : Q) (k : Z) :
  y <= inject_Z k -> (round_half_even y <= k)%Z.
Proof.
  intros H. unfold round_half_even.
  assert (Hf : (Qfloor y <= k)%Z).
  { rewrite <- (Qfloor_Z k). now apply Qfloor_resp_le. }
  pose proof (Qfloor_le y) as Hlo.
  case_Q (Qltb (y - inject_Z (Qfloor y)) (1 # 2)); [exact Hf|].
  assert (Hlt : (Qfloor y < k)%Z).
  { apply Z.le_neq. split; [exact Hf|]. intros Heq. rewrite Heq in E. lra. }
  destruct (Qltb _ _); [lia|]. destruct (Z.even _); lia.
Qed.

Lemma py_round_ge (x : Q) (n : nat) (k : Z) :
  inject_Z k <= x -> inject_Z k <= py_round x n.
Proof.
  intros H. unfold py_round. pose proof (pow10_pos n) as Hs.
  apply Qle_shift_div_l; [exact Hs|].
  rewrite <- inject_Z_mult, <- Zle_Qle.
  apply round_half_even_ge. rewrite inject_Z_mult.
  apply Qmult_le_r; assumption.
Qed.

Lemma py_round_le (x : Q) (n : nat) (k : Z) :
  x <= inject_Z k -> py_round x n <= inject_Z k.
Proof.
  intros H. unfold py_round. pose proof (pow10_pos n) as Hs.
  apply Qle_shift_div_r; [exact Hs|].
  rewrite <- inject_Z_mult, <- Zle_Qle.
  apply round_half_even_le. rewrite inject_Z_mult.
  apply Qmult_le_r; assumption.
Qed.

(** ** Drawdown *)

Lemma x_min2_keeps (P : xfloat -> Prop) (acc x : xfloat) :
  P acc -> P x -> P (x_min2 acc x).
Proof.
  intros Ha Hx. unfold x_min2.
  destruct acc, x; try assumption; destruct (x_ltb _ _); assumption.
Qed.

Lemma series_min_keeps (P : xfloat -> Prop) (s : list xfloat) :
  P NaN -> Forall P s -> P (series_min s).
Proof.
  unfold series_min. generalize NaN as acc. induction s as [|x s IH];
    intros acc Ha Hs; simpl; [exact Ha|].
  inversion Hs; subst. apply IH; [|assumption]. now apply x_min2_keeps.
Qed.

Lemma x_min2_below_l (acc x : xfloat) :
  below_zero acc -> below_zero (x_min2 acc x).
Proof.
  intros Ha. unfold x_min2.
  destruct acc as [a| | |], x as [b| | |]; simpl in *; try tauto.
  unfold Qltb. destruct (Qle_bool a b) eqn:E; simpl; [exact Ha|].
  assert (Hba : b < a).
  { apply Qnot_le_lt. intros Hle. apply Qle_bool_iff in Hle. congruence. }
  lra.
Qed.

Lemma x_min2_below_r (acc x : xfloat) :
  below_zero x -> below_zero (x_min2 acc x).
Proof.
  intros Hx. unfold x_min2.
  destruct acc as [a| | |], x as [b| | |]; simpl in *; try tauto.
  unfold Qltb. destruct (Qle_bool a b) eqn:E; simpl; [|exact Hx].
  apply Qle_bool_iff in E. lra.
Qed.

Lemma fold_min_below (s : list xfloat) :
  forall acc, below_zero acc -> below_zero (fold_left x_min2 s acc).
Proof.
  induction s as [|x s IH]; intros acc Ha; simpl; [exact Ha|].
  apply IH. now apply x_min2_below_l.
Qed.

Lemma series_min_head_below (x : xfloat) (s : list xfloat) :
  below_zero x -> below_zero (series_min (x :: s)).
Proof.
  intros Hx. unfold series_min. cbn [fold_left]. apply fold_min_below.
  now apply x_min2_below_r.
Qed.

Lemma below_zero_nonpos (x : xfloat) : below_zero x -> x_nonpos x.
Proof. destruct x; simpl; tauto. Qed.

Lemma cummax_from_bounds (m : Q) (s : list Q) :
  Forall (fun p => fst p <= snd p /\ m <= snd p) (combine s (cummax_from m s)).
Proof.
  revert m. induction s as [|x s IH]; intros m; simpl; [constructor|].
  pose proof (py_max_ge_l m x). pose proof (py_max_ge_r m x).
  constructor; [simpl; split; assumption|].
  eapply List.Forall_impl; [|apply IH]. simpl. intros p [? ?]. split; lra.
Qed.

Lemma cummax_bounds (x : Q) (s : list Q) :
  Forall (fun p => fst p <= snd p /\ x <= snd p)
         (combine (x :: s) (cummax (x :: s))).
Proof.
  simpl. constructor; [simpl; split; lra|]. apply cummax_from_bounds.
Qed.

(** A drawdown against a running maximum that is not negative. *)
Lemma drawdown_nonpos (c m : Q) :
  c <= m -> 0 <= m -> x_nonpos (x_sub (np_div c m) 1).
Proof.
  intros Hcm Hm. unfold np_div. case_Q (Qeqb m 0).
  - case_Q (Qltb 0 c); [lra|]. destruct (Qltb c 0); exact I.
  - simpl. assert (Hpos : 0 < m) by lra.
    assert (c / m <= 1); [|lra].
    apply Qle_shift_div_r; lra.
Qed.

Lemma drawdowns_nonpos (curve : list Q) :
  x_nonpos (series_min (drawdowns curve)).
Proof.
  destruct curve as [|x s]; [exact I|]. unfold drawdowns.
  case_Q (Qleb 0 x).
  - apply series_min_keeps; [exact I|]. rewrite List.Forall_map.
    eapply List.Forall_impl; [|apply cummax_bounds].
    intros p [H1 H2]. apply drawdown_nonpos; lra.
  - apply below_zero_nonpos.
    change (combine (x :: s) (cummax (x :: s)))
      with ((x, x) :: combine s (cummax_from x s)).
    cbn [map fst snd]. apply series_min_head_below.
    unfold np_div. assert (Hx : Qeqb x 0 = false) by (apply Qeqb_neq; lra).
    rewrite Hx. simpl. assert (Hxx : x / x == 1) by (field; lra). lra.
Qed.

Lemma x_nonpos_report (x : xfloat) :
  x_nonpos x -> x_nonpos (x_round (x_scale x 100) 4).
Proof.
  destruct x as [q| | |]; simpl; try tauto. intros Hq.
  apply (py_round_le _ _ 0%Z). change (inject_Z 0) with 0. lra.
Qed.

(** X13: the maximum drawdown the summary reports is never positive: it is
    a number <= 0, or minus infinity or NaN when a running maximum of the
    equity curve is zero. *)
Theorem max_drawdown_never_positive (stop : Q) (ledger : list Row) :
  exists s, summarize stop ledger = Ok s /\ x_nonpos (max_drawdown s).
Proof.
  destruct (summarize_total stop ledger) as [s Hs]. exists s.
  split; [exact Hs|].
  apply summarize_fields in Hs as (_ & _ & Hdd). rewrite Hdd.
  destruct (drawdowns (equity_curve ledger)) as [|x dd] eqn:E; [exact I|].
  rewrite <- E. apply x_nonpos_report, drawdowns_nonpos.
Qed.

Lemma never_falls_tail (x : Q) (s : list Q) :
  never_falls (x :: s) -> never_falls s.
Proof. simpl. tauto. Qed.

Lemma cummax_from_never_falls (s : list Q) :
  forall m m', never_falls (m :: s) -> m' == m -> 0 < m ->
  Forall (fun p => fst p == snd p /\ 0 < fst p) (combine s (cummax_from m' s)).
Proof.
  induction s as [|x s IH]; intros m m' Hn Hm Hpos; simpl; [constructor|].
  destruct Hn as [Hmx Hn].
  assert (Hx : py_max m' x == x).
  { unfold py_max. case_Q (Qltb m' x); lra. }
  constructor; [simpl; split; lra|].
  apply (IH x); [exact Hn | exact Hx | lra].
Qed.

Lemma fold_min_zero (s : list xfloat) :
  forall acc,
    (exists q, acc = Fin q /\ q == 0) ->
    Forall (fun x => exists q, x = Fin q /\ q == 0) s ->
    exists q, fold_left x_min2 s acc = Fin q /\ q == 0.
Proof.
  induction s as [|x s IH]; intros acc Ha Hs; simpl; [exact Ha|].
  inversion Hs as [|? ? Hx Hs']; subst. apply IH; [|exact Hs'].
  destruct Ha as (a & -> & Ha), Hx as (b & -> & Hb). simpl.
  destruct (Qltb b a); eauto.
Qed.

(** X14: when the ledger is not empty, its first ending equity is positive
    and the ending equity never falls from one row to the next, the
    reported maximum drawdown is 0. *)
Theorem no_drawdown_when_equity_never_falls (stop : Q) (ledger : list Row)
    (s : Summary) (r0 : Row) :
  summarize stop ledger = Ok s ->
  ledger !! O = Some r0 -> 0 < end_equity r0 ->
  never_falls (equity_curve ledger) ->
  exists q, max_drawdown s = Fin q /\ q == 0.
Proof.
  intros Hs Hhead Hpos Hn.
  apply summarize_fields in Hs as (_ & _ & Hdd). rewrite Hdd.
  destruct ledger as [|r ledger]; [discriminate|]. injection Hhead as ->.
  unfold equity_curve in *. cbn [map] in *.
  assert (Hall : Forall (fun x => exists q, x = Fin q /\ q == 0)
                   (drawdowns (end_equity r0 :: map end_equity ledger))).
  { unfold drawdowns. rewrite List.Forall_map.
    assert (Hp : Forall (fun p => fst p == snd p /\ 0 < fst p)
                   (combine (end_equity r0 :: map end_equity ledger)
                      (cummax (end_equity r0 :: map end_equity ledger)))).
    { simpl. constructor; [simpl; split; [reflexivity | exact Hpos]|].
      apply (cummax_from_never_falls _ (end_equity r0));
        [exact Hn | reflexivity | exact Hpos]. }
    eapply List.Forall_impl; [|exact Hp]. intros [c m] [Hcm Hc]. simpl in *.
    unfold np_div. assert (Hm : Qeqb m 0 = false) by (apply Qeqb_neq; lra).
    rewrite Hm. simpl. eexists. split; [reflexivity|].
    assert (c / m == 1) by (rewrite Hcm; field; lra). lra. }
  destruct (drawdowns (end_equity r0 :: map end_equity ledger))
    as [|x dd] eqn:E; [discriminate E|].
  inversion Hall as [|? ? Hx Hdds]; subst.
  destruct (fold_min_zero dd x Hx Hdds) as (q & Hq & Hq0).
  unfold series_min. cbn [fold_left].
  replace (x_min2 NaN x) with x by reflexivity.
  rewrite Hq. simpl. eexists. split; [reflexivity|].
  apply Qle_antisym.
  - apply (py_round_le _ _ 0%Z). change (inject_Z 0) with 0. lra.
  - apply (py_round_ge _ _ 0%Z). change (inject_Z 0) with 0. lra.
Qed.

Lemma no_drawdown_when_equity_never_falls_witness :
  exists s r0 q,
    summarize STOP_PCT_DEFAULT winning_ledger = Ok s /\
    winning_ledger !! O = Some r0 /\
    100 < end_equity r0 /\
    max_drawdown s = Fin q /\ q == 0.
Proof.
  evar (s : Summary). evar (r0 : Row). exists s, r0.
  assert (Hs : summarize STOP_PCT_DEFAULT winning_ledger = Ok s)
    by (unfold s; vm_compute; reflexivity).
  assert (Hr : winning_ledger !! O = Some r0)
    by (unfold r0; vm_compute; reflexivity).
  destruct (no_drawdown_when_equity_never_falls STOP_PCT_DEFAULT
              winning_ledger s r0 Hs Hr) as (q & Hq & Hq0).
  - reflexivity.
  - vm_compute. repeat split; discriminate.
  - exists q. split; [exact Hs|]. split; [exact Hr|].
    split; [reflexivity|]. split; [exact Hq | exact Hq0].
Defined.

(** ** Counts and rates *)

Lemma summarize_counts (stop : Q) (ledger : list Row) (s : Summary) :
  summarize stop ledger = Ok s ->
  trades s = List.length (List.filter is_trade ledger) /\
  wins s = count (fun r => Qltb 0 (net_pnl r)) (List.filter is_trade ledger) /\
  losses s = count (fun r => Qltb (net_pnl r) 0) (List.filter is_trade ledger) /\
  stops_triggered s
    = count (fun r => ExitReason_eqb (exit_reason r) stop_hit) ledger /\
  (trades s <> O ->
     win_rate s
     = Fin (py_round (inject_Z (Z.of_nat (wins s))
                      / inject_Z (Z.of_nat (trades s)) * 100) 2)).
Proof.
  unfold summarize. intros H.
  apply bind_ok in H as (wr & Hwr & H).
  apply bind_ok in H as (tr & Htr & H).
  injection H as <-. cbn [trades wins losses stops_triggered win_rate].
  repeat (split; [reflexivity|]). intros Hn.
  destruct (List.length (List.filter is_trade ledger)) as [|n] eqn:En;
    [congruence|].
  apply bind_ok in Hwr as (q & Hq & Hwr). injection Hwr as <-.
  unfold py_div in Hq. destruct (Qeqb _ 0); [discriminate|].
  injection Hq as <-. reflexivity.
Qed.

Lemma count_le_length {A : Type} (p : A -> bool) (l : list A) :
  (count p l <= List.length l)%nat.
Proof.
  unfold count. induction l as [|x l IH]; simpl; [lia|].
  destruct (p x); simpl; lia.
Qed.

Lemma count_disjoint {A : Type} (p q : A -> bool) (l : list A) :
  (forall x, p x = true -> q x = false) ->
  (count p l + count q l <= List.length l)%nat.
Proof.
  intros Hpq. unfold count. induction l as [|x l IH]; simpl; [lia|].
  destruct (p x) eqn:Ep; [rewrite (Hpq x Ep)|destruct (q x)]; simpl; lia.
Qed.

Lemma count_implies {A : Type} (p q : A -> bool) (l : list A) :
  Forall (fun x => p x = true -> q x = true) l ->
  (count p l <= count q l)%nat.
Proof.
  unfold count. induction 1 as [|x l Hx _ IH]; simpl; [lia|].
  destruct (p x) eqn:Ep; [rewrite (Hx eq_refl)|destruct (q x)]; simpl; lia.
Qed.

(** X16: when the ledger holds at least one trade, the reported win rate
    is a number between 0 and 100. *)
Theorem win_rate_is_a_percentage (stop : Q) (ledger : list Row) (s : Summary) :
  summarize stop ledger = Ok s ->
  trades s <> O ->
  exists q, win_rate s = Fin q /\ 0 <= q /\ q <= 100.
Proof.
  intros H Hn. apply summarize_counts in H as (Htr & Hw & _ & _ & Hwr).
  rewrite (Hwr Hn). eexists. split; [reflexivity|].
  assert (Hle : (wins s <= trades s)%nat).
  { rewrite Hw, Htr. apply count_le_length. }
  assert (Hpos : 0 < inject_Z (Z.of_nat (trades s))).
  { change 0 with (inject_Z 0). rewrite <- Zlt_Qlt. lia. }
  assert (Hw0 : 0 <= inject_Z (Z.of_nat (wins s))).
  { change 0 with (inject_Z 0). rewrite <- Zle_Qle. lia. }
  assert (Hwn : inject_Z (Z.of_nat (wins s)) <= inject_Z (Z.of_nat (trades s))).
  { rewrite <- Zle_Qle. lia. }
  assert (H0 : 0 <= inject_Z (Z.of_nat (wins s)) / inject_Z (Z.of_nat (trades s))).
  { apply Qle_shift_div_l; lra. }
  assert (H1 : inject_Z (Z.of_nat (wins s)) / inject_Z (Z.of_nat (trades s)) <= 1).
  { apply Qle_shift_div_r; lra. }
  split.
  - apply (py_round_ge _ _ 0%Z). change (inject_Z 0) with 0. lra.
  - apply (py_round_le _ _ 100%Z). change (inject_Z 100) with 100. lra.
Qed.

Lemma win_rate_is_a_percentage_witness :
  exists s q,
    summarize STOP_PCT_DEFAULT winning_ledger = Ok s /\
    trades s = 2%nat /\
    win_rate s = Fin q /\ 0 <= q /\ q <= 100.
Proof.
  evar (s : Summary). exists s.
  assert (Hs : summarize STOP_PCT_DEFAULT winning_ledger = Ok s)
    by (unfold s; vm_compute; reflexivity).
  destruct (win_rate_is_a_percentage STOP_PCT_DEFAULT winning_ledger s Hs)
    as (q & Hq).
  - discriminate.
  - exists q. split; [exact Hs|]. split; [reflexivity | exact Hq].
Defined.

Lemma stop_hit_is_trade (stop : Q) (st : State) (day : Z) (g0 : list Bar)
    (st' : State) (r : Row) :
  run_session stop st day g0 = Ok st' ->
  rows st' = rows st ++ [r] ->
  ExitReason_eqb (exit_reason r) stop_hit = true -> is_trade r = true.
Proof.
  intros H Hrows Hreason.
  apply run_session_inv in H
    as (mk & r' & _ & Hrows' & _ & _ & _ & _ & Hcase).
  rewrite Hrows' in Hrows. apply app_inv_head in Hrows.
  injection Hrows as ->.
  destruct Hcase as [(_ & Hr & _) | (fb0 & fbs & en0 & ens & ex0 & exs & _
                        & _ & _ & _ & _ & [(_ & Hr & _) | [(_ & Hr & _) | T]])];
    try (rewrite Hr in Hreason; discriminate).
  unfold is_trade. rewrite (tr_signal _ _ _ _ _ _ _ _ _ T).
  destruct (Qltb _ _); reflexivity.
Qed.

(** X15: in the summary [run] returns, wins and losses together never
    exceed the number of trades, the number of trades never exceeds the
    number of ledger rows, and neither does the number of triggered stops
    exceed the number of trades: a stop is only ever recorded on a traded
    session. *)
Theorem summary_counts_consistent (raw : list Bar) (stop : Q)
    (ledger : list Row) (s : Summary) :
  run raw stop = Ok (ledger, s) ->
  (wins s + losses s <= trades s)%nat /\
  (trades s <= List.length ledger)%nat /\
  (stops_triggered s <= trades s)%nat.
Proof.
  intros H. apply run_ledger in H as (st & Hloop & -> & Hs).
  apply summarize_counts in Hs as (Htr & Hw & Hl & Hst & _).
  rewrite Htr, Hw, Hl, Hst. split; [|split].
  - apply count_disjoint. intros r Hr. apply Qltb_lt in Hr.
    apply Qltb_ge. lra.
  - apply (count_le_length is_trade).
  - apply (count_implies _ is_trade).
    destruct (run_loop_invariant stop (fun _ => True) (fun _ => True)
                (fun r => ExitReason_eqb (exit_reason r) stop_hit = true ->
                          is_trade r = true))
      with (groups := groupby d (load_data raw)) (st := init_state) (st' := st)
      as (new & Hrows & Hall & _).
    + intros st0 day g st1 r _ _ Hrun Hrows. split; [|exact I].
      now apply (stop_hit_is_trade stop st0 day g st1 r).
    + apply List.Forall_forall. intros; exact I.
    + exact I.
    + exact Hloop.
    + simpl in Hrows. now subst new.
Qed.

Lemma summary_counts_consistent_witness :
  exists ledger s,
    run sample_raw STOP_PCT_DEFAULT = Ok (ledger, s) /\
    stops_triggered s = 1%nat /\
    (wins s + losses s <= trades s)%nat /\
    (trades s <= List.length ledger)%nat /\
    (stops_triggered s <= trades s)%nat.
Proof.
  eexists. eexists. split; [vm_compute; reflexivity|].
  split; [reflexivity|].
  eapply (summary_counts_consistent sample_raw STOP_PCT_DEFAULT).
  vm_compute. reflexivity.
Defined.

(** ** Failure and shape of a run *)

(** X11: [run] fails on exactly one kind of input, a bar series with no
    bar, and then with the KeyError of sorting a frame without columns; on
    every other input none of its divisions, dictionary reads or plan
    look-ups raises. *)
Theorem run_raises_only_on_no_bars (raw : list Bar) (stop : Q) (e : exn) :
  run raw stop = Raise e <-> raw = [] /\ e = KeyError "date".
Proof.
  split.
  - intros H. destruct raw as [|b raw].
    + rewrite run_empty in H. injection H as <-. auto.
    + destruct (run_total (b :: raw) stop) as [out Hout]; [discriminate|].
      congruence.
  - intros [-> ->]. apply run_empty.
Qed.

(** X12: the ledger has exactly one row per calendar day that has a bar in
    the input, traded or not, in strictly ascending date order. *)
Theorem ledger_has_one_row_per_day (raw : list Bar) (stop : Q)
    (ledger : list Row) (s : Summary) :
  run raw stop = Ok (ledger, s) ->
  strictly_ascending (map date ledger) /\
  forall day, In day (map date ledger) <-> exists b, In b raw /\ d b = day.
Proof.
  intros H. apply run_inv in H as (_ & Hd & _). rewrite Hd.
  split; [apply group_keys_ascending|].
  intros day. rewrite group_keys_In, in_map_iff. unfold load_data.
  split.
  - intros (b & Hb & Hin). exists b. apply sort_values_In in Hin. auto.
  - intros (b & Hin & Hb). exists b. split; [exact Hb|].
    now apply sort_values_In.
Qed.

Lemma ledger_has_one_row_per_day_witness :
  exists ledger s,
    run sample_raw STOP_PCT_DEFAULT = Ok (ledger, s) /\
    map date ledger = [1%Z; 2%Z; 3%Z] /\
    strictly_ascending (map date ledger) /\
    forall day, In day (map date ledger) <->
                exists b, In b sample_raw /\ d b = day.
Proof.
  eexists. eexists. split; [vm_compute; reflexivity|].
  split; [reflexivity|].
  eapply (ledger_has_one_row_per_day sample_raw STOP_PCT_DEFAULT).
  vm_compute. reflexivity.
Defined.

(** ** Monthly volume *)

Lemma month_volume_touch (m : gmap string Q) (mk k : string) :
  month_volume (touch_month m mk) k = month_volume m k.
Proof. apply touch_month_read. Qed.

(** One session: the month of the session gains both legs of the trade,
    every other month is left as it was. *)
Lemma run_session_volume (stop : Q) (st : State) (day : Z) (g0 : list Bar)
    (st' : State) :
  run_session stop st day g0 = Ok st' ->
  exists r, rows st' = rows st ++ [r] /\ 0 <= shares r /\
    forall k, month_volume (monthly_vol st') k
              == month_volume (monthly_vol st) k + traded_volume k [r].
Proof.
  intros H. apply run_session_inv in H
    as (mk & r & _ & Hrows & _ & Hmk & _ & _ & Hcase).
  exists r. split; [exact Hrows|].
  assert (Hskip : skip_session st st' mk r ->
            0 <= shares r /\
            forall k, month_volume (monthly_vol st') k
                      == month_volume (monthly_vol st) k + traded_volume k [r]).
  { intros S. rewrite (sk_shares _ _ _ _ S), (sk_vol _ _ _ _ S).
    split; [lra|]. intros k. rewrite month_volume_touch. simpl.
    rewrite (sk_shares _ _ _ _ S). destruct (String.eqb _ _); ring. }
  destruct Hcase as [(S & _) | (fb0 & fbs & en0 & ens & ex0 & exs & _ & _ & _
                                & _ & _ & [(S & _) | [(S & _) | T]])];
    try (now apply Hskip).
  pose proof (tr_lot _ _ _ _ _ _ _ _ _ T) as Hlot.
  assert (Hmin : 0 < MIN_FRACTIONAL_SHARES) by reflexivity.
  split; [lra|]. intros k.
  destruct (tr_legs _ _ _ _ _ _ _ _ _ T) as (v & xp & Hv & _ & _ & _ & Hvol).
  rewrite Hvol. unfold month_volume at 1. simpl. rewrite Hmk.
  destruct (String.eqb mk k) eqn:Ek.
  - apply String.eqb_eq in Ek. subst k. rewrite lookup_insert_eq. simpl.
    rewrite <- (month_volume_touch (monthly_vol st) mk mk).
    unfold month_volume. rewrite Hv. simpl. ring.
  - apply String.eqb_neq in Ek.
    rewrite !lookup_insert_ne by exact Ek.
    fold (month_volume (touch_month (monthly_vol st) mk) k).
    rewrite month_volume_touch. ring.
Qed.

Lemma traded_volume_app (k : string) (l1 l2 : list Row) :
  traded_volume k (l1 ++ l2) == traded_volume k l1 + traded_volume k l2.
Proof.
  induction l1 as [|r l1 IH]; simpl; [ring|]. rewrite IH. ring.
Qed.

Lemma traded_volume_nonneg (k : string) (l : list Row) :
  Forall (fun r => 0 <= shares r) l -> 0 <= traded_volume k l.
Proof.
  induction 1 as [|r l Hr _ IH]; simpl; [lra|].
  destruct (String.eqb _ _); lra.
Qed.

(** X10: along the loop of [run] the volume of every month only grows, and
    it grows by exactly the shares of the trades recorded in that month,
    each counted twice (entry leg and exit leg); skipped sessions add
    nothing. *)
Theorem monthly_volume_counts_both_legs (stop : Q)
    (groups : list (Z * list Bar)) (st st' : State) :
  run_loop stop st groups = Ok st' ->
  exists new,
    rows st' = rows st ++ new /\
    forall k,
      month_volume (monthly_vol st') k
        == month_volume (monthly_vol st) k + traded_volume k new /\
      month_volume (monthly_vol st) k <= month_volume (monthly_vol st') k.
Proof.
  revert st st'. induction groups as [|[day g] groups IH];
    intros st st' H; simpl in H.
  - injection H as <-. exists []. rewrite app_nil_r. split; [reflexivity|].
    intros k. simpl. split; lra.
  - apply bind_ok in H as (st1 & H1 & H).
    apply run_session_volume in H1 as (r & Hrows & Hsh & Hvol).
    apply IH in H as (new & Hrows' & Hvol').
    exists (r :: new). rewrite Hrows', Hrows, <- app_assoc.
    split; [reflexivity|]. intros k.
    destruct (Hvol' k) as [Heq Hle]. specialize (Hvol k).
    assert (Hr : 0 <= traded_volume k [r]).
    { apply traded_volume_nonneg. constructor; [exact Hsh | constructor]. }
    change (r :: new) with ([r] ++ new). rewrite traded_volume_app.
    split; lra.
Qed.

Lemma monthly_volume_counts_both_legs_witness :
  exists st' new,
    run_loop STOP_PCT_DEFAULT init_state (groupby d (load_data sample_raw))
      = Ok st' /\
    rows st' = rows init_state ++ new /\
    forall k,
      month_volume (monthly_vol st') k
        == month_volume (monthly_vol init_state) k + traded_volume k new /\
      month_volume (monthly_vol init_state) k
        <= month_volume (monthly_vol st') k.
Proof.
  eexists.
  edestruct (monthly_volume_counts_both_legs STOP_PCT_DEFAULT
               (groupby d (load_data sample_raw)) init_state)
    as (new & H).
  - vm_compute. reflexivity.
  - exists new. split; [vm_compute; reflexivity | exact H].
Defined.

(** ** Range breakout: recorded days and statistics *)

Lemma rb_day_result_some (date : Z) (group : list RangeBreakout.Bar)
    (r : RangeBreakout.Row) :
  RangeBreakout.day_result date group = Some r ->
  RangeBreakout.row_Date r = date /\
  exists b, In b group /\ RangeBreakout.Time b = RangeBreakout.ENTRY_TIME.
Proof.
  unfold RangeBreakout.day_result.
  destruct (List.filter _ _) as [|first rest] eqn:Ef; [discriminate|].
  intros [= <-]. split; [reflexivity|]. exists first.
  assert (Hin : In first (first :: rest)) by now left.
  rewrite <- Ef in Hin. apply filter_In in Hin as [Hin Ht].
  apply sort_values_In in Hin. apply String.eqb_eq in Ht. auto.
Qed.

Lemma rb_day_result_none (date : Z) (group : list RangeBreakout.Bar) :
  RangeBreakout.day_result date group = None ->
  forall b, In b group -> RangeBreakout.Time b <> RangeBreakout.ENTRY_TIME.
Proof.
  unfold RangeBreakout.day_result.
  destruct (List.filter _ _) as [|first rest] eqn:Ef; [|discriminate].
  intros _ b Hb Ht.
  assert (Hin : In b (List.filter
                        (fun b => String.eqb (RangeBreakout.Time b)
                                    RangeBreakout.ENTRY_TIME)
                        (sort_values RangeBreakout.Datetime group))).
  { apply filter_In. split; [now apply sort_values_In|].
    now apply String.eqb_eq. }
  rewrite Ef in Hin. exact Hin.
Qed.

(** Rows kept from groups in ascending key order are in ascending order. *)
Lemma omap_keys_ascending {G R : Type} (f : Z * G -> option R) (key : R -> Z)
    (groups : list (Z * G)) :
  (forall kg r, f kg = Some r -> key r = fst kg) ->
  strictly_ascending (map fst groups) ->
  strictly_ascending (map key (omap f groups)) /\
  Forall (fun k => In k (map fst groups)) (map key (omap f groups)).
Proof.
  intros Hkey. unfold strictly_ascending.
  induction groups as [|kg groups IH]; simpl; intros Hs;
    [split; constructor|].
  inversion Hs as [|? ? Hs' Hlt]; subst.
  destruct (IH Hs') as [IH1 IH2].
  assert (IH2' : Forall (fun k => fst kg = k \/ In k (map fst groups))
                        (map key (omap f groups))).
  { eapply List.Forall_impl; [|exact IH2]. simpl. auto. }
  destruct (f kg) as [r|] eqn:Ef; simpl; [|split; assumption].
  rewrite (Hkey _ _ Ef). split.
  - constructor; [exact IH1|].
    rewrite List.Forall_forall in IH2, Hlt. apply List.Forall_forall.
    intros k Hk. apply Hlt, IH2, Hk.
  - constructor; [now left | exact IH2'].
Qed.

(** X17: range_breakout.py records exactly the days that have a bar
    labelled 09:30:00, in strictly ascending date order; a day without
    that bar leaves no row at all (it is not recorded as a skip). *)
Theorem rb_results_cover_days_with_first_candle (df : list RangeBreakout.Bar) :
  strictly_ascending (map RangeBreakout.row_Date (RangeBreakout.results df)) /\
  forall date,
    In date (map RangeBreakout.row_Date (RangeBreakout.results df)) <->
    exists b, In b df /\ RangeBreakout.Date b = date /\
              RangeBreakout.Time b = RangeBreakout.ENTRY_TIME.
Proof.
  unfold RangeBreakout.results. split.
  - apply omap_keys_ascending.
    + intros [k g] r Hr. now apply rb_day_result_some in Hr.
    + rewrite groupby_keys. apply group_keys_ascending.
  - intros date. rewrite in_map_iff. split.
    + intros (r & Hd & Hr). apply list_elem_of_In, list_elem_of_omap in Hr.
      destruct Hr as ([k g] & Hkg & Hres). apply list_elem_of_In in Hkg.
      simpl in Hres. apply rb_day_result_some in Hres as [Hk (b & Hb & Ht)].
      apply groupby_In in Hkg as [-> _].
      apply filter_In in Hb as [Hb Hkey]. apply Z.eqb_eq in Hkey.
      exists b. repeat split; [exact Hb | congruence | exact Ht].
    + intros (b & Hb & Hd & Ht).
      set (g := List.filter (fun b0 => (RangeBreakout.Date b0 =? date)%Z) df).
      assert (Hkg : In (date, g) (groupby RangeBreakout.Date df)).
      { unfold groupby. apply in_map_iff. exists date. split; [reflexivity|].
        apply group_keys_In, in_map_iff. eauto. }
      assert (Hbg : In b g).
      { apply filter_In. split; [exact Hb | now apply Z.eqb_eq]. }
      destruct (RangeBreakout.day_result date g) as [r|] eqn:Er.
      * exists r. split; [now apply rb_day_result_some in Er|].
        apply list_elem_of_In, list_elem_of_omap. exists (date, g).
        split; [now apply list_elem_of_In | exact Er].
      * exfalso. exact (rb_day_result_none _ _ Er b Hbg Ht).
Qed.

Import RangeBreakoutStats.












(** ** Points study (research_algo.py) *)

Lemma ra_first_stop_some (sign : Z) (entry stop_pts : Q)
    (w : list ResearchAlgo.Bar) (tm : string) :
  ResearchAlgo.first_stop sign entry stop_pts w = Some tm ->
  (sign = 1%Z \/ sign = (-1)%Z) /\
  exists b, In b w /\ ResearchAlgo.time_et b = tm /\
            (sign = 1%Z -> ResearchAlgo.low b <= entry - stop_pts) /\
            (sign = (-1)%Z -> entry + stop_pts <= ResearchAlgo.high b).
Proof.
  induction w as [|b w IH]; simpl; [discriminate|].
  destruct (sign =? 1)%Z eqn:E1.
  - apply Z.eqb_eq in E1.
    case_Q (Qleb (ResearchAlgo.low b) (entry - stop_pts)).
    + intros [= <-]. split; [now left|]. exists b.
      repeat split; [now left | now intros _ | lia].
    + intros H. destruct (IH H) as (Hs & b' & Hb & Ht). split; [exact Hs|].
      exists b'. split; [now right | exact Ht].
  - destruct (sign =? -1)%Z eqn:E2; [|discriminate].
    apply Z.eqb_eq in E2.
    case_Q (Qleb (entry + stop_pts) (ResearchAlgo.high b)).
    + intros [= <-]. split; [now right|]. exists b.
      repeat split; [now left | lia | now intros _].
    + intros H. destruct (IH H) as (Hs & b' & Hb & Ht). split; [exact Hs|].
      exists b'. split; [now right | exact Ht].
Qed.


(** Every way [day_row] can produce a row. *)
Lemma ra_day_row_inv (stop_pts : Q) (drop_doji : bool) (dy : Z)
    (g0 : list ResearchAlgo.Bar) (r : ResearchAlgo.Row) :
  ResearchAlgo.day_row stop_pts drop_doji dy g0 = Some r ->
  exists f e,
    In f g0 /\ ResearchAlgo.time_et f = "09:30" /\
    In e g0 /\ ResearchAlgo.time_et e = "11:30" /\
    ResearchAlgo.row_Date r = dy /\
    ResearchAlgo.FirstBar_Open r = ResearchAlgo.open f /\
    ResearchAlgo.FirstBar_Close r = ResearchAlgo.close f /\
    ResearchAlgo.Entry_Px r = ResearchAlgo.close f /\
    ResearchAlgo.Stop_Points r = stop_pts /\
    (ResearchAlgo.Sign r, ResearchAlgo.row_Signal r)
      = ResearchAlgo.first_bar_direction (ResearchAlgo.open f)
          (ResearchAlgo.close f) /\
    (drop_doji = true -> ResearchAlgo.Sign r <> 0%Z) /\
    match ResearchAlgo.first_stop (ResearchAlgo.Sign r) (ResearchAlgo.close f)
            stop_pts (ra_window g0) with
    | Some tm =>
        ResearchAlgo.Stop_Hit r = true /\
        ResearchAlgo.Exit r = ResearchAlgo.STOP_at tm /\
        ResearchAlgo.Exit_Px r = None /\
        ResearchAlgo.Gain_Points r = - stop_pts
    | None =>
        ResearchAlgo.Stop_Hit r = false /\
        ResearchAlgo.Exit r = ResearchAlgo.AT_1130 /\
        ResearchAlgo.Exit_Px r = Some (ResearchAlgo.close e) /\
        ResearchAlgo.Gain_Points r
          = if (ResearchAlgo.Sign r =? 1)%Z
            then ResearchAlgo.close e - ResearchAlgo.close f
            else if (ResearchAlgo.Sign r =? -1)%Z
                 then ResearchAlgo.close f - ResearchAlgo.close e
                 else 0
    end.
Proof.
  unfold ResearchAlgo.day_row. fold (ra_window g0).
  destruct (List.filter
              (fun b => String.eqb (ResearchAlgo.time_et b) "09:30") _)
    as [|f fs] eqn:Ef; [discriminate|].
  destruct (List.filter
              (fun b => String.eqb (ResearchAlgo.time_et b) "11:30") _)
    as [|e es] eqn:Ee; [discriminate|].
  assert (Hf : In f g0 /\ ResearchAlgo.time_et f = "09:30").
  { assert (Hin : In f (f :: fs)) by now left.
    rewrite <- Ef in Hin. apply filter_In in Hin as [Hin Ht].
    apply sort_values_In in Hin. apply String.eqb_eq in Ht. auto. }
  assert (He : In e g0 /\ ResearchAlgo.time_et e = "11:30").
  { assert (Hin : In e (e :: es)) by now left.
    rewrite <- Ee in Hin. apply filter_In in Hin as [Hin Ht].
    apply sort_values_In in Hin. apply String.eqb_eq in Ht. auto. }
  destruct (drop_doji && _) eqn:Edrop; [discriminate|].
  intros [= <-]. exists f, e.
  cbn [ResearchAlgo.row_Date ResearchAlgo.FirstBar_Open
       ResearchAlgo.FirstBar_Close ResearchAlgo.Entry_Px
       ResearchAlgo.Stop_Points ResearchAlgo.Sign ResearchAlgo.row_Signal
       ResearchAlgo.Stop_Hit ResearchAlgo.Exit ResearchAlgo.Exit_Px
       ResearchAlgo.Gain_Points].
  destruct Hf as [Hf1 Hf2], He as [He1 He2].
  repeat (split; [first [assumption | reflexivity]|]).
  split; [symmetry; apply surjective_pairing|].
  split.
  { intros ->. simpl in Edrop. apply Z.eqb_neq in Edrop. exact Edrop. }
  destruct (ResearchAlgo.first_stop _ _ _ _); repeat split; reflexivity.
Qed.

Lemma ra_day_row_none (stop_pts : Q) (dy : Z) (g0 : list ResearchAlgo.Bar) :
  ResearchAlgo.day_row stop_pts false dy g0 = None ->
  (forall b, In b g0 -> ResearchAlgo.time_et b <> "09:30") \/
  (forall b, In b g0 -> ResearchAlgo.time_et b <> "11:30").
Proof.
  unfold ResearchAlgo.day_row.
  destruct (List.filter
              (fun b => String.eqb (ResearchAlgo.time_et b) "09:30") _)
    as [|f fs] eqn:Ef.
  { intros _. left. intros b Hb Ht.
    assert (Hin : In b []); [|exact Hin].
    rewrite <- Ef. apply filter_In. split; [now apply sort_values_In|].
    now apply String.eqb_eq. }
  destruct (List.filter
              (fun b => String.eqb (ResearchAlgo.time_et b) "11:30") _)
    as [|e es] eqn:Ee; [|discriminate].
  intros _. right. intros b Hb Ht.
  assert (Hin : In b []); [|exact Hin].
  rewrite <- Ee. apply filter_In. split; [now apply sort_values_In|].
  now apply String.eqb_eq.
Qed.

(** What [compute_daily_points] returns is the list of day rows itself:
    it is already in date order. *)
Lemma ra_compute_rows (df : list ResearchAlgo.Bar) (stop_pts : Q)
    (drop_doji : bool) (rows : list ResearchAlgo.Row) :
  ResearchAlgo.compute_daily_points df stop_pts drop_doji = Ok rows ->
  rows <> [] /\
  rows = omap (fun p => ResearchAlgo.day_row stop_pts drop_doji (fst p) (snd p))
              (groupby ResearchAlgo.day df) /\
  strictly_ascending (map ResearchAlgo.row_Date rows).
Proof.
  unfold ResearchAlgo.compute_daily_points.
  set (rows0 := omap _ _).
  assert (Hasc : strictly_ascending (map ResearchAlgo.row_Date rows0)).
  { apply omap_keys_ascending.
    - intros [k g] r Hr. simpl in Hr.
      apply ra_day_row_inv in Hr as (f & e & _ & _ & _ & _ & Hd & _).
      exact Hd.
    - rewrite groupby_keys. apply group_keys_ascending. }
  assert (Hid : sort_values ResearchAlgo.row_Date rows0 = rows0)
    by (apply sort_values_id, strictly_ascending_map, Hasc).
  destruct rows0 as [|r rs] eqn:E; [discriminate|].
  rewrite Hid. intros [= <-]. split; [discriminate|]. split; [reflexivity|].
  exact Hasc.
Qed.

Lemma ra_rows_from_groups (df : list ResearchAlgo.Bar) (stop_pts : Q)
    (drop_doji : bool) (rows : list ResearchAlgo.Row) (r : ResearchAlgo.Row) :
  ResearchAlgo.compute_daily_points df stop_pts drop_doji = Ok rows ->
  In r rows ->
  exists g, (forall b, In b g -> In b df /\ ResearchAlgo.day b = ResearchAlgo.row_Date r) /\
            ResearchAlgo.day_row stop_pts drop_doji (ResearchAlgo.row_Date r) g
              = Some r.
Proof.
  intros H Hr. apply ra_compute_rows in H as (_ & -> & _).
  apply list_elem_of_In, list_elem_of_omap in Hr.
  destruct Hr as ([k g] & Hkg & Hres). apply list_elem_of_In in Hkg.
  simpl in Hres. pose proof Hres as Hinv.
  apply ra_day_row_inv in Hinv as (_ & _ & _ & _ & _ & _ & Hd & _).
  apply groupby_In in Hkg as [-> _]. rewrite Hd. eexists. split; [|exact Hres].
  intros b Hb. apply filter_In in Hb as [Hb Hk]. apply Z.eqb_eq in Hk. auto.
Qed.

(** X19: [compute_daily_points] never returns an empty frame (with no
    qualifying day it raises the KeyError of sorting a frame without
    columns); its rows are in strictly ascending date order, and every row
    belongs to a day that has both a 09:30 and an 11:30 bar.  Without
    [drop_doji] every such day has its row; with [drop_doji] no row has
    sign 0. *)
Theorem ra_rows_are_the_complete_days (df : list ResearchAlgo.Bar)
    (stop_pts : Q) (drop_doji : bool) (rows : list ResearchAlgo.Row) :
  ResearchAlgo.compute_daily_points df stop_pts drop_doji = Ok rows ->
  rows <> [] /\
  strictly_ascending (map ResearchAlgo.row_Date rows) /\
  (forall dy, In dy (map ResearchAlgo.row_Date rows) ->
     (exists f, In f df /\ ResearchAlgo.day f = dy /\
                ResearchAlgo.time_et f = "09:30") /\
     (exists e, In e df /\ ResearchAlgo.day e = dy /\
                ResearchAlgo.time_et e = "11:30")) /\
  (drop_doji = true -> Forall (fun r => ResearchAlgo.Sign r <> 0%Z) rows) /\
  (drop_doji = false ->
   forall f e, In f df -> In e df ->
     ResearchAlgo.day f = ResearchAlgo.day e ->
     ResearchAlgo.time_et f = "09:30" -> ResearchAlgo.time_et e = "11:30" ->
     In (ResearchAlgo.day f) (map ResearchAlgo.row_Date rows)).
Proof.
  intros H. pose proof (ra_compute_rows _ _ _ _ H) as (Hne & Hrows & Hasc).
  split; [exact Hne|]. split; [exact Hasc|]. split; [|split].
  - intros dy Hdy. apply in_map_iff in Hdy as (r & <- & Hr).
    destruct (ra_rows_from_groups _ _ _ _ _ H Hr) as (g & Hg & Hrow).
    apply ra_day_row_inv in Hrow as (f & e & Hf & Htf & He & Hte & _).
    destruct (Hg f Hf), (Hg e He). split; [exists f | exists e]; auto.
  - intros Hdrop. apply List.Forall_forall. intros r Hr.
    destruct (ra_rows_from_groups _ _ _ _ _ H Hr) as (g & _ & Hrow).
    apply ra_day_row_inv in Hrow
      as (f & e & _ & _ & _ & _ & _ & _ & _ & _ & _ & _ & Hs & _).
    now apply Hs.
  - intros -> f e Hf He Hday Htf Hte.
    set (dy := ResearchAlgo.day f) in *.
    set (g := List.filter (fun b => (ResearchAlgo.day b =? dy)%Z) df).
    assert (Hkg : In (dy, g) (groupby ResearchAlgo.day df)).
    { unfold groupby. apply in_map_iff. exists dy. split; [reflexivity|].
      apply group_keys_In, in_map_iff. exists f. auto. }
    assert (Hfg : In f g).
    { apply filter_In. split; [exact Hf | now apply Z.eqb_eq]. }
    assert (Heg : In e g).
    { apply filter_In. split; [exact He|]. apply Z.eqb_eq. now symmetry. }
    destruct (ResearchAlgo.day_row stop_pts false dy g) as [r|] eqn:Er.
    + apply in_map_iff. exists r. split.
      * now apply ra_day_row_inv in Er as (_ & _ & _ & _ & _ & _ & Hd & _).
      * rewrite Hrows. apply list_elem_of_In, list_elem_of_omap.
        exists (dy, g). split; [now apply list_elem_of_In | exact Er].
    + exfalso. destruct (ra_day_row_none _ _ _ Er) as [Hno | Hno].
      * exact (Hno f Hfg Htf).
      * exact (Hno e Heg Hte).
Qed.

Lemma ra_rows_are_the_complete_days_witness :
  exists rows,
    ResearchAlgo.compute_daily_points ra_week 1 true = Ok rows /\
    map ResearchAlgo.row_Date rows = [1%Z; 2%Z] /\
    rows <> [] /\
    strictly_ascending (map ResearchAlgo.row_Date rows) /\
    Forall (fun r => ResearchAlgo.Sign r <> 0%Z) rows.
Proof.
  eexists. split; [vm_compute; reflexivity|]. split; [reflexivity|].
  edestruct (ra_rows_are_the_complete_days ra_week 1 true)
    as (Hne & Hasc & _ & Hdrop & _).
  - vm_compute. reflexivity.
  - split; [exact Hne|]. split; [exact Hasc | now apply Hdrop].
Defined.


Lemma ra_window_labels (g0 : list ResearchAlgo.Bar) (b : ResearchAlgo.Bar) :
  In b (ra_window g0) ->
  In b g0 /\ In (ResearchAlgo.time_et b) ResearchAlgo.AFTER_TIMES.
Proof.
  unfold ra_window. intros Hb. apply sort_values_In, filter_In in Hb.
  destruct Hb as [Hb Hl]. apply sort_values_In in Hb. split; [exact Hb|].
  unfold ResearchAlgo.isin in Hl. apply existsb_exists in Hl.
  destruct Hl as (s & Hs & Heq). apply String.eqb_eq in Heq. now subst.
Qed.

Lemma ra_direction_cases (o c : Q) :
  (o < c /\ ResearchAlgo.first_bar_direction o c = (1%Z, ResearchAlgo.GREEN)) \/
  (c < o /\ ResearchAlgo.first_bar_direction o c = ((-1)%Z, ResearchAlgo.RED)) \/
  (c == o /\ ResearchAlgo.first_bar_direction o c = (0%Z, ResearchAlgo.DOJI)).
Proof.
  unfold ResearchAlgo.first_bar_direction.
  case_Q (Qltb o c); [now left|].
  case_Q (Qltb c o); [right; now left|].
  right; right. split; [lra | reflexivity].
Qed.



(** X21: shape of a recorded day.  The sign and the signal follow the
    first bar (green: close above open; red: below; doji: equal), and the
    entry is its close.  The day is marked stopped exactly when no exit
    price is recorded, and then the exit names one of the bars from 10:00
    to 11:30 of that day; a doji day is never stopped and records 0. *)
Theorem ra_row_shape (df : list ResearchAlgo.Bar)
    (stop_pts : Q) (drop_doji : bool) (rows : list ResearchAlgo.Row)
    (r : ResearchAlgo.Row) :
  ResearchAlgo.compute_daily_points df stop_pts drop_doji = Ok rows ->
  In r rows ->
  ResearchAlgo.Entry_Px r = ResearchAlgo.FirstBar_Close r /\
  ((ResearchAlgo.Sign r = 1%Z /\ ResearchAlgo.row_Signal r = ResearchAlgo.GREEN /\
    ResearchAlgo.FirstBar_Open r < ResearchAlgo.FirstBar_Close r) \/
   (ResearchAlgo.Sign r = (-1)%Z /\ ResearchAlgo.row_Signal r = ResearchAlgo.RED /\
    ResearchAlgo.FirstBar_Close r < ResearchAlgo.FirstBar_Open r) \/
   (ResearchAlgo.Sign r = 0%Z /\ ResearchAlgo.row_Signal r = ResearchAlgo.DOJI /\
    ResearchAlgo.FirstBar_Close r == ResearchAlgo.FirstBar_Open r /\
    ResearchAlgo.Stop_Hit r = false /\ ResearchAlgo.Gain_Points r = 0)) /\
  (ResearchAlgo.Stop_Hit r = true <-> ResearchAlgo.Exit_Px r = None) /\
  (ResearchAlgo.Stop_Hit r = false <-> ResearchAlgo.Exit r = ResearchAlgo.AT_1130) /\
  (forall tm, ResearchAlgo.Exit r = ResearchAlgo.STOP_at tm ->
     In tm ResearchAlgo.AFTER_TIMES /\
     exists b, In b df /\ ResearchAlgo.day b = ResearchAlgo.row_Date r /\
               ResearchAlgo.time_et b = tm /\
               (ResearchAlgo.Sign r = 1%Z ->
                ResearchAlgo.low b <= ResearchAlgo.Entry_Px r - stop_pts) /\
               (ResearchAlgo.Sign r = (-1)%Z ->
                ResearchAlgo.Entry_Px r + stop_pts <= ResearchAlgo.high b)).
Proof.
  intros H Hr.
  destruct (ra_rows_from_groups _ _ _ _ _ H Hr) as (g & Hg & Hrow).
  apply ra_day_row_inv in Hrow
    as (f & e & Hf & Htf & He & Hte & _ & Ho & Hc & Hen & _ & Hdir & _ & Hout).
  rewrite Hen, Ho, Hc. split; [reflexivity|].
  destruct (ResearchAlgo.first_stop _ _ _ _) as [tm|] eqn:Es.
  - destruct Hout as (Hh & Hex & Hpx & Hgain).
    destruct (ra_first_stop_some _ _ _ _ _ Es)
      as (Hsign & b & Hb & Ht & Hlong & Hshort).
    apply ra_window_labels in Hb as [Hb Hlab].
    split.
    { destruct (ra_direction_cases (ResearchAlgo.open f) (ResearchAlgo.close f))
        as [[Hlt Hd] | [[Hlt Hd] | [_ Hd]]];
        rewrite Hd in Hdir; injection Hdir as Hs Hsig.
      - left. auto.
      - right; left. auto.
      - exfalso. lia. }
    rewrite Hh, Hpx, Hex.
    split; [split; reflexivity|]. split; [split; discriminate|].
    intros tm' [= <-]. rewrite Ht in Hlab. split; [exact Hlab|].
    exists b. destruct (Hg b Hb). auto.
  - destruct Hout as (Hh & Hex & Hpx & Hgain).
    split.
    { destruct (ra_direction_cases (ResearchAlgo.open f) (ResearchAlgo.close f))
        as [[Hlt Hd] | [[Hlt Hd] | [Heq Hd]]];
        rewrite Hd in Hdir; injection Hdir as Hs Hsig.
      - left. auto.
      - right; left. auto.
      - right; right. rewrite Hgain, Hs. cbn [Z.eqb]. auto. }
    rewrite Hh, Hpx, Hex.
    split; [split; discriminate|]. split; [split; reflexivity|].
    discriminate.
Qed.

Lemma ra_row_shape_witness :
  exists r,
    ra_stopped_row = Some r /\
    ResearchAlgo.Sign r = 1%Z /\
    ResearchAlgo.Entry_Px r = ResearchAlgo.FirstBar_Close r /\
    (ResearchAlgo.Stop_Hit r = true <-> ResearchAlgo.Exit_Px r = None) /\
    In "10:15" ResearchAlgo.AFTER_TIMES.
Proof.
  evar (r : ResearchAlgo.Row). exists r.
  split; [unfold r; vm_compute; reflexivity|].
  split; [reflexivity|].
  edestruct (ra_row_shape ra_week 1 false ra_week_rows)
    as (Hen & _ & Hpx & _ & Hlab).
  - vm_compute. reflexivity.
  - vm_compute. left. reflexivity.
  - split; [exact Hen|]. split; [exact Hpx|].
    exact (proj1 (Hlab "10:15" eq_refl)).
Defined.

(** ** Rounding is symmetric and respects equality of rationals *)

Lemma round_half_even_comp (y y' : Q) :
  y == y' -> round_half_even y = round_half_even y'.
Proof.
  intros H. unfold round_half_even. rewrite (Qfloor_comp _ _ H).
  case_Q (Qltb (y - inject_Z (Qfloor y')) (1 # 2));
    case_Q (Qltb (y' - inject_Z (Qfloor y')) (1 # 2)); try lra;
    try reflexivity.
  case_Q (Qltb (1 # 2) (y - inject_Z (Qfloor y')));
    case_Q (Qltb (1 # 2) (y' - inject_Z (Qfloor y'))); try lra; reflexivity.
Qed.


Lemma round_half_even_opp (y : Q) :
  round_half_even (- y) = (- round_half_even y)%Z.
Proof.
  unfold round_half_even.
  set (f := Qfloor y). set (f' := Qfloor (- y)).
  pose proof (Qfloor_le y) as H1. pose proof (Qlt_floor y) as H2.
  pose proof (Qfloor_le (- y)) as H3. pose proof (Qlt_floor (- y)) as H4.
  fold f in H1, H2. fold f' in H3, H4.
  rewrite inject_Z_plus in H2, H4.
  change (inject_Z 1) with 1 in H2, H4.
  assert (Hsub : forall a : Z, inject_Z (- a - 1) == - inject_Z a - 1).
  { intros a. unfold Z.sub. rewrite inject_Z_plus, inject_Z_opp.
    reflexivity. }
  assert (Hk : (f' = - f \/ f' = - f - 1)%Z).
  { assert (Ha : (- f - 1 < f' + 1)%Z).
    { rewrite Zlt_Qlt, inject_Z_plus, Hsub. change (inject_Z 1) with 1. lra. }
    assert (Hb : (f' <= - f)%Z).
    { rewrite Zle_Qle, inject_Z_opp. lra. }
    lia. }
  destruct Hk as [Hk | Hk].
  - assert (Hy : y == inject_Z f).
    { rewrite Hk, inject_Z_opp in H3. lra. }
    rewrite Hk, inject_Z_opp.
    case_Q (Qltb (- y - - inject_Z f) (1 # 2)); [|lra].
    case_Q (Qltb (y - inject_Z f) (1 # 2)); [reflexivity | lra].
  - assert (Hf' : inject_Z f' == - inject_Z f - 1).
    { rewrite Hk. apply Hsub. }
    assert (Hne : ~ y == inject_Z f).
    { intros Hy. rewrite Hf' in H4. lra. }
    assert (Hev : Z.even f' = negb (Z.even f)).
    { rewrite Hk. replace (- f - 1)%Z with (- (f + 1))%Z by lia.
      rewrite Z.even_opp. replace (f + 1)%Z with (Z.succ f) by lia.
      rewrite Z.even_succ, <- Z.negb_even. reflexivity. }
    case_Q (Qltb (- y - inject_Z f') (1 # 2));
      case_Q (Qltb (y - inject_Z f) (1 # 2)); try lra.
    + case_Q (Qltb (1 # 2) (y - inject_Z f)); [lia | lra].
    + case_Q (Qltb (1 # 2) (- y - inject_Z f')); [lia | lra].
    + case_Q (Qltb (1 # 2) (- y - inject_Z f'));
        case_Q (Qltb (1 # 2) (y - inject_Z f)); try lra.
      rewrite Hev. destruct (Z.even f); simpl; lia.
Qed.

Lemma py_round_opp (x : Q) (n : nat) : py_round (- x) n == - py_round x n.
Proof.
  unfold py_round. set (s := inject_Z (10 ^ Z.of_nat n)).
  pose proof (pow10_pos n) as Hs. fold s in Hs.
  rewrite (round_half_even_comp (- x * s) (- (x * s))) by ring.
  rewrite round_half_even_opp, inject_Z_opp. field. lra.
Qed.

Lemma py_round_zero (n : nat) : py_round 0 n == 0.
Proof.
  unfold py_round. pose proof (pow10_pos n) as Hs.
  rewrite (round_half_even_comp (0 * _) 0) by ring.
  change (round_half_even 0) with 0%Z. change (inject_Z 0) with 0.
  field. lra.
Qed.

(** ** Range breakout: gain and range *)

Lemma rb_scan_cases (dir : RangeBreakout.Direction) (tp sl x : Q)
    (session : list RangeBreakout.Bar) :
  RangeBreakout.scan dir tp sl x session = (RangeBreakout.HIT_TP, x) \/
  RangeBreakout.scan dir tp sl x session = (RangeBreakout.HIT_SL, - x) \/
  RangeBreakout.scan dir tp sl x session = (RangeBreakout.NO_HIT, 0).
Proof.
  induction session as [|b session IH]; simpl; [auto|].
  destruct dir.
  - destruct (Qleb _ _); [auto|]. destruct (Qleb _ _); auto.
  - destruct (Qleb _ _); [auto|]. destruct (Qleb _ _); auto.
Qed.

(** X22: in every row range_breakout.py records, the gain column is tied
    to the result and to the range column: a HIT TP day gains exactly the
    recorded range, a HIT SL day loses exactly the recorded range, and a
    NO HIT day records 0; the target and the stop are the entry (the first
    candle's close) plus and minus the candle's range, on the side given
    by the direction. *)
Theorem rb_gain_is_plus_or_minus_range (df : list RangeBreakout.Bar)
    (r : RangeBreakout.Row) :
  In r (RangeBreakout.results df) ->
  match RangeBreakout.row_Result r with
  | RangeBreakout.HIT_TP =>
      RangeBreakout.row_Gain_Points r == RangeBreakout.row_Range r
  | RangeBreakout.HIT_SL =>
      RangeBreakout.row_Gain_Points r == - RangeBreakout.row_Range r
  | RangeBreakout.NO_HIT => RangeBreakout.row_Gain_Points r == 0
  end /\
  exists x,
    RangeBreakout.row_Range r = py_round x 2 /\
    match RangeBreakout.row_Direction r with
    | RangeBreakout.LONG =>
        RangeBreakout.row_Open r < RangeBreakout.row_Close r /\
        RangeBreakout.row_TP r = py_round (RangeBreakout.row_Close r + x) 2 /\
        RangeBreakout.row_SL r = py_round (RangeBreakout.row_Close r - x) 2
    | RangeBreakout.SHORT =>
        RangeBreakout.row_Close r <= RangeBreakout.row_Open r /\
        RangeBreakout.row_TP r = py_round (RangeBreakout.row_Close r - x) 2 /\
        RangeBreakout.row_SL r = py_round (RangeBreakout.row_Close r + x) 2
    end.
Proof.
  unfold RangeBreakout.results. intros Hr.
  apply list_elem_of_In, list_elem_of_omap in Hr.
  destruct Hr as ([k g] & _ & Hres). simpl in Hres.
  unfold RangeBreakout.day_result in Hres.
  destruct (List.filter _ _) as [|first rest]; [discriminate|].
  injection Hres as <-.
  cbn [RangeBreakout.row_Result RangeBreakout.row_Gain_Points
       RangeBreakout.row_Range RangeBreakout.row_Direction
       RangeBreakout.row_Open RangeBreakout.row_Close
       RangeBreakout.row_TP RangeBreakout.row_SL].
  set (x := RangeBreakout.high first - RangeBreakout.low first).
  split.
  - destruct (rb_scan_cases
                (RangeBreakout.direction (RangeBreakout.open first)
                   (RangeBreakout.close first))
                match RangeBreakout.direction (RangeBreakout.open first)
                        (RangeBreakout.close first) with
                | RangeBreakout.LONG => RangeBreakout.close first + x
                | RangeBreakout.SHORT => RangeBreakout.close first - x
                end
                match RangeBreakout.direction (RangeBreakout.open first)
                        (RangeBreakout.close first) with
                | RangeBreakout.LONG => RangeBreakout.close first - x
                | RangeBreakout.SHORT => RangeBreakout.close first + x
                end
                x (RangeBreakout.session_bars
                     (sort_values RangeBreakout.Datetime g)))
      as [-> | [-> | ->]]; cbn [fst snd].
    + reflexivity.
    + apply py_round_opp.
    + apply py_round_zero.
  - exists x. split; [reflexivity|].
    unfold RangeBreakout.direction.
    case_Q (Qltb (RangeBreakout.open first) (RangeBreakout.close first));
      auto.
Qed.

Lemma rb_gain_is_plus_or_minus_range_witness :
  exists r,
    head (RangeBreakout.results rb_week) = Some r /\
    match RangeBreakout.row_Result r with
    | RangeBreakout.HIT_TP =>
        RangeBreakout.row_Gain_Points r == RangeBreakout.row_Range r
    | RangeBreakout.HIT_SL =>
        RangeBreakout.row_Gain_Points r == - RangeBreakout.row_Range r
    | RangeBreakout.NO_HIT => RangeBreakout.row_Gain_Points r == 0
    end.
Proof.
  evar (r : RangeBreakout.Row). exists r.
  split; [unfold r; vm_compute; reflexivity|].
  apply (rb_gain_is_plus_or_minus_range rb_week).
  vm_compute. left. reflexivity.
Defined.

(** ** The summary's headline figures *)





(** ** Header check of backtest.py *)

Lemma need_elem (c : string) :
  c ∈ LoadData.need <->
  c = "date" \/ c = "open" \/ c = "high" \/ c = "low" \/ c = "close".
Proof.
  unfold LoadData.need. rewrite !elem_of_union, !elem_of_singleton. tauto.
Qed.

Lemma rename_ate_elem (columns : list string) (c : string) :
  c ∈ LoadData.rename_ate columns <->
  (c ∈ columns /\ (c <> "ate" \/ "date" ∈ columns)) \/
  (c = "date" /\ "ate" ∈ columns).
Proof.
  unfold LoadData.rename_ate.
  destruct (bool_decide ("ate" ∈ columns)) eqn:Ea;
    [apply bool_decide_eq_true in Ea | apply bool_decide_eq_false in Ea];
    (destruct (bool_decide ("date" ∈ columns)) eqn:Ed;
      [apply bool_decide_eq_true in Ed | apply bool_decide_eq_false in Ed]);
    cbn [andb negb].
  - intuition (subst; auto).
  - rewrite list_elem_of_fmap. split.
    + intros (c0 & -> & Hc0). destruct (String.eqb c0 "ate") eqn:E.
      * right. auto.
      * left. apply String.eqb_neq in E. auto.
    + intros [[Hc [Hne | Hd]] | [-> _]].
      * exists c. apply String.eqb_neq in Hne. rewrite Hne. auto.
      * contradiction.
      * exists "ate". auto.
  - intuition (subst; auto).
  - split; [intros H | tauto].
    left. split; [exact H|]. left. intros ->. contradiction.
Qed.

(** X24: the header check of backtest.py's [load_data].  A file is
    accepted exactly when it has the columns open, high, low and close and
    a column named date or, failing that, one named ate (which is then
    renamed to date, the other columns being kept as they are).  A
    rejected file exits with the non-empty set of required names it
    lacks, in which date does not appear when the file has an ate
    column. *)
Theorem header_accepted_iff (columns : list string) :
  ((exists cols, LoadData.check_columns columns = LoadData.Columns cols) <->
   ("date" ∈ columns \/ "ate" ∈ columns) /\
   "open" ∈ columns /\ "high" ∈ columns /\ "low" ∈ columns /\
   "close" ∈ columns) /\
  (forall cols, LoadData.check_columns columns = LoadData.Columns cols ->
     "date" ∈ cols /\ length cols = length columns /\
     ("date" ∈ columns -> cols = columns)) /\
  (forall miss, LoadData.check_columns columns = LoadData.SystemExit miss ->
     miss <> ∅ /\
     forall c, c ∈ miss <->
       (c ∈ LoadData.need) /\ ~ (c ∈ columns) /\
       ~ (c = "date" /\ "ate" ∈ columns)).
Proof.
  assert (Hopen : forall c, c <> "ate" -> c <> "date" ->
            (c ∈ LoadData.rename_ate columns <-> c ∈ columns)).
  { intros c H1 H2. rewrite rename_ate_elem. intuition congruence. }
  assert (Hdate : "date" ∈ LoadData.rename_ate columns <->
                  "date" ∈ columns \/ "ate" ∈ columns).
  { rewrite rename_ate_elem. intuition. }
  assert (Hmiss : forall c,
            c ∈ LoadData.need ∖ list_to_set (LoadData.rename_ate columns) <->
            (c ∈ LoadData.need) /\ ~ (c ∈ columns) /\
            ~ (c = "date" /\ "ate" ∈ columns)).
  { intros c. rewrite elem_of_difference, elem_of_list_to_set.
    split.
    - intros [Hn Hc]. split; [exact Hn|]. split.
      + intros Hin. apply Hc.
        destruct (decide (c = "date")) as [-> | Hd];
          [apply Hdate; now left|].
        apply Hopen; [|exact Hd | exact Hin].
        apply need_elem in Hn. intros ->.
        destruct Hn as [? | [? | [? | [? | ?]]]]; discriminate.
      + intros [-> Ha]. apply Hc, Hdate. now right.
    - intros (Hn & Hc & Hd). split; [exact Hn|]. intros Hin.
      apply rename_ate_elem in Hin as [[Hin _] | [Heq Ha]]; auto. }
  unfold LoadData.check_columns.
  destruct (bool_decide _) eqn:E;
    [apply bool_decide_eq_true in E | apply bool_decide_eq_false in E].
  - assert (Hall : forall c, c ∈ LoadData.need ->
              c ∈ LoadData.rename_ate columns).
    { intros c Hc. destruct (decide (c ∈ LoadData.rename_ate columns)) as [|Hn];
        [assumption|].
      exfalso. apply (not_elem_of_empty (C:=gset string) c).
      rewrite <- E. apply elem_of_difference.
      rewrite elem_of_list_to_set. auto. }
    split; [|split].
    + split; [intros _ | eauto].
      split; [apply Hdate, Hall, need_elem; tauto|].
      repeat split; (apply Hopen; [discriminate | discriminate |]);
        apply Hall, need_elem; tauto.
    + intros cols [= <-]. split; [apply Hall, need_elem; tauto|]. split.
      * unfold LoadData.rename_ate. destruct (_ && _); [|reflexivity].
        apply length_fmap.
      * intros Hd. unfold LoadData.rename_ate.
        rewrite (bool_decide_eq_true_2 _ Hd), andb_false_r. reflexivity.
    + discriminate.
  - split; [|split].
    + split; [intros [cols Hc]; discriminate|].
      intros (Hd & Ho & Hh & Hl & Hc). exfalso. apply E.
      apply set_eq. intros c. rewrite Hmiss, need_elem.
      split; [|intros Hc0; exfalso; exact (not_elem_of_empty c Hc0)].
      intros (Hcase & Hnot & Hda).
      destruct Hcase as [-> | [-> | [-> | [-> | ->]]]];
        try contradiction.
      destruct Hd as [Hd | Ha]; [contradiction | exfalso; auto].
    + discriminate.
    + intros miss [= <-]. split; [exact E | exact Hmiss].
Qed.
